(** * Governance contracts: proposal script and safety-module test harness

    A shallow embedding of
    - [src/test/tx-builder/safety-module.spec.ts]: the helpers [elapseEpoch],
      [saveSnapshot] and [loadSnapshot] and the test bodies that use them;
    - [src/src/migrations/grants-program-proposal.ts]: the routine
      [createGrantsProgramProposal].

    Both files are asynchronous, sequential TypeScript.  Every [await] is a
    sequencing point, so an [async] function is embedded as a computation in a
    monad: a state-and-exception monad over the simulated network for the
    test harness, a tree of calls to the outside world for the script.

    The definitions come first, one module per part of the program; the
    properties follow, one module of facts per module of definitions. *)

From stdpp Require Import gmap strings list pretty.
From Stdlib Require Import ZArith Lia QArith Qcanon.

Local Open Scope Z_scope.

(** ** JavaScript values *)

Module JS.

(** An ethers [BigNumber] is an unbounded integer. *)
Definition BigNumber := Z.

(** A JavaScript [number] holding an integer. *)
Definition number := Z.

Definition MAX_SAFE_INTEGER : Z := 2 ^ 53 - 1.

(** What a rejected promise or a [throw] carries. *)
Inductive exn : Type :=
| Error (message : string)
| NumericFault (operation : string) (value : Z).

Inductive result (A : Type) : Type :=
| Ok (a : A)
| Throw (e : exn).
Arguments Ok {A} a.
Arguments Throw {A} e.

(** [BigNumber.prototype.toNumber]: the value as a [number] when it fits in
    53 bits, an overflow fault otherwise. *)
Definition toNumber (b : BigNumber) : result number :=
  if Z.abs b <=? MAX_SAFE_INTEGER then Ok b
  else Throw (NumericFault "toNumber" b).

(** Truthiness of an integer [number]: only zero is falsy. *)
Definition truthy_number (n : number) : bool := negb (n =? 0).

(** Truthiness of [string | undefined]: [undefined] and the empty string are
    falsy. *)
Definition truthy_string (s : option string) : bool :=
  match s with
  | None => false
  | Some s => negb (String.eqb s "")
  end.

End JS.

(** ** The simulated network

    The test suite talks to a local development node through the helpers of
    [helpers/misc-utils] ([evmSnapshot], [evmRevert], [increaseTime],
    [increaseTimeAndMine]).  Their code is not among the sources. *)

Module Evm.

Section WithStorage.

(** The contracts' storage; the harness never looks inside. *)
Context {Storage : Type}.

(** The state of the simulated chain: its clock, the timestamps of the
    blocks mined through the time helpers (latest first), and the
    contracts' storage. *)
Record Chain : Type := mkChain {
  clock : Z;
  blocks : list Z;
  storage : Storage;
}.

(** The node: the current chain and the states captured so far; the
    snapshot with number [i] is the [i]-th element of [captured]. *)
Record Node : Type := mkNode {
  chain : Chain;
  captured : list Chain;
}.

(** The opaque identifier handed out for snapshot number [i]. *)
Definition handle_of (i : nat) : string := "0x" +:+ pretty i.

Fixpoint resolve_from (i : nat) (cs : list Chain) (h : string) : option Chain :=
  match cs with
  | [] => None
  | c :: cs' =>
      if decide (handle_of i = h) then Some c else resolve_from (S i) cs' h
  end.

(** The chain state a handle stands for, if the node issued it. *)
Definition resolve (n : Node) (h : string) : option Chain :=
  resolve_from 0 (captured n) h.

(** Modelled from the spec: [evmSnapshot] of [helpers/misc-utils], which is
    not among the sources.  "a captured point-in-time state of the
    simulated chain that can be restored later": the current chain state
    is recorded and an opaque identifier for it is returned. *)
Definition evmSnapshot (n : Node) : string * Node :=
  (handle_of (length (captured n)),
   {| chain := chain n; captured := captured n ++ [chain n] |}).

(** Modelled from the spec: [evmRevert] of [helpers/misc-utils], which is
    not among the sources.  "restores chain state to that handle"; for an
    identifier the node never issued nothing is restored and the answer
    is [false]. *)
Definition evmRevert (h : string) (n : Node) : bool * Node :=
  match resolve n h with
  | Some c => (true, {| chain := c; captured := captured n |})
  | None => (false, n)
  end.

Definition advance (secs : Z) (c : Chain) : Chain :=
  {| clock := clock c + secs; blocks := blocks c; storage := storage c |}.

Definition mine (c : Chain) : Chain :=
  {| clock := clock c; blocks := clock c :: blocks c; storage := storage c |}.

(** Modelled from the spec: [increaseTime] of [helpers/misc-utils], which
    is not among the sources.  "Advances simulated time by that
    amount". *)
Definition increaseTime (secs : JS.number) (n : Node) : Node :=
  {| chain := advance secs (chain n); captured := captured n |}.

(** Modelled from the spec: [increaseTimeAndMine] of [helpers/misc-utils],
    which is not among the sources.  "Advances simulated time by that
    amount, optionally mining a block to commit the new timestamp". *)
Definition increaseTimeAndMine (secs : JS.number) (n : Node) : Node :=
  {| chain := mine (advance secs (chain n)); captured := captured n |}.

End WithStorage.

Arguments Chain : clear implicits.
Arguments Node : clear implicits.

End Evm.

(** ** The test harness of [safety-module.spec.ts] *)

Module Harness.
Import JS Evm.

Section WithContract.

Context {Storage : Type}.

(** [safetyModule.getTimeRemainingInCurrentEpoch()]: a view of the
    contract, read off the current chain state.  The contract is an
    external collaborator; nothing is assumed about what it answers. *)
Variable getTimeRemainingInCurrentEpoch : Chain Storage → BigNumber.

(** The constant [EPOCH_LENGTH] of [helpers/constants], which is not among
    the sources: a [BigNumber], converted where it is used. *)
Variable EPOCH_LENGTH : BigNumber.

(** The module-level [snapshots] map together with the node the suite is
    connected to. *)
Record World : Type := mkWorld {
  snapshots : gmap string string;
  node : Node Storage;
}.

(** An [async] function of the suite: it may change the world, and it
    either resolves with a value or rejects. *)
Definition M (A : Type) : Type := World → result A * World.

Definition ret {A} (a : A) : M A := λ w, (Ok a, w).

Definition throw {A} (e : exn) : M A := λ w, (Throw e, w).

Definition bind {A B} (m : M A) (k : A → M B) : M B :=
  λ w, match m w with
       | (Ok a, w') => k a w'
       | (Throw e, w') => (Throw e, w')
       end.

Definition lift {A} (r : result A) : M A := λ w, (r, w).

(** A read of the chain that changes nothing. *)
Definition view {A} (q : Chain Storage → A) : M A :=
  λ w, (Ok (q (chain (node w))), w).

(** A request to the node. *)
Definition rpc {A} (f : Node Storage → A * Node Storage) : M A :=
  λ w, let '(a, n) := f (node w) in
       (Ok a, {| snapshots := snapshots w; node := n |}).

Definition rpc_ (f : Node Storage → Node Storage) : M unit :=
  rpc (λ n, (tt, f n)).

Definition snapshots_get (label : string) : M (option string) :=
  λ w, (Ok (snapshots w !! label), w).

Definition snapshots_set (label handle : string) : M unit :=
  λ w, (Ok tt, {| snapshots := <[label := handle]> (snapshots w);
                  node := node w |}).

Notation "'let*' x ':=' m 'in' k" := (bind m (λ x, k))
  (at level 10, x name, m at level 100, k at level 200).
Notation "'do*' m 'in' k" := (bind m (λ _, k))
  (at level 10, m at level 100, k at level 200).

(** [async function elapseEpoch(mineBlock: boolean = true)]; in
    [remaining ||= EPOCH_LENGTH.toNumber()] the right-hand side is only
    evaluated, and can only fault, when [remaining] is zero. *)
Definition elapseEpoch (mineBlock : option bool) : M unit :=
  let mineBlock := default true mineBlock in
  let* reported := view getTimeRemainingInCurrentEpoch in
  let* remaining := lift (toNumber reported) in
  let* remaining :=
    if truthy_number remaining then ret remaining
    else lift (toNumber EPOCH_LENGTH) in
  if mineBlock
  then rpc_ (increaseTimeAndMine remaining)
  else rpc_ (increaseTime remaining).

(** [async function saveSnapshot(label: string)] *)
Definition saveSnapshot (label : string) : M unit :=
  let* handle := rpc evmSnapshot in
  snapshots_set label handle.

Definition not_saved_message (label : string) : string :=
  "Cannot load since snapshot has not been saved: " +:+ label.

(** [async function loadSnapshot(label: string)] *)
Definition loadSnapshot (label : string) : M unit :=
  let* snapshot := snapshots_get label in
  if negb (truthy_string snapshot)
  then throw (Error (not_saved_message label))
  else
    do* rpc (evmRevert (default "" snapshot)) in
    let* handle := rpc evmSnapshot in
    snapshots_set label handle.

(** The world with another chain state, everything else as it was. *)
Definition with_chain (c : Chain Storage) (w : World) : World :=
  {| snapshots := snapshots w;
     node := {| chain := c; captured := captured (node w) |} |}.

(** How far a call of [elapseEpoch] moves the clock of the chain. *)
Definition elapsed (mineBlock : option bool) (w : World) : Z :=
  clock (chain (node (snd (elapseEpoch mineBlock w))))
  - clock (chain (node w)).

(** [label] has a saved handle [h], which the node issued for the chain
    state [c]. *)
Definition saved (w : World) (label h : string) (c : Chain Storage) : Prop :=
  snapshots w !! label = Some h ∧ resolve (node w) h = Some c.

(** Every handle in the store was issued by the node. *)
Definition consistent (w : World) : Prop :=
  ∀ label h, snapshots w !! label = Some h → is_Some (resolve (node w) h).

End WithContract.

Arguments World : clear implicits.
Arguments M : clear implicits.

(** A suite that has saved nothing yet, on a chain without contracts. *)
Definition genesis : World unit :=
  {| snapshots := ∅;
     node := {| chain := {| clock := 0; blocks := []; storage := tt |};
                captured := [] |} |}.

(** Four weeks, in seconds. *)
Definition four_weeks : BigNumber := 2419200.

End Harness.

(** ** The migration script [grants-program-proposal.ts] *)

Module Migration.
Import JS.

(** A JavaScript value handed to the ABI coder. *)
Inductive jsval : Type :=
| JString (s : string)
| JNumber (n : number)
| JBigNumber (b : BigNumber)
| JBoolean (b : bool).

(** [SignerWithAddress]: the script only reads [address]. *)
Record SignerWithAddress : Type := mkSigner {
  address : string;
}.

(** The two entries of the deployment configuration the script reads. *)
Record DeployConfig : Type := mkDeployConfig {
  DGP_MULTISIG_ADDRESS : string;
  DGP_FUNDING_AMOUNT : jsval;
}.

(** The tuple type [Proposal] of [src/types]: executor, targets, values,
    signatures, calldatas, delegate-call flags, IPFS hash. *)
Definition Proposal : Type :=
  string * list string * list string * list string * list string
  * list bool * string.

(** An ethers [TransactionRequest]; absent fields are [None]. *)
Record TransactionRequest : Type := mkTransactionRequest {
  to : option string;
  from : option string;
  data : option string;
  nonce : option number;
  gasLimit : option BigNumber;
  gasPrice : option BigNumber;
  chainId : option number;
}.

(** The argument object of [createGrantsProgramProposal]. *)
Record Args : Type := mkArgs {
  proposalIpfsHashHex : string;
  dydxTokenAddress : string;
  governorAddress : string;
  shortTimelockAddress : string;
  communityTreasuryAddress : string;
  signer : option SignerWithAddress;
}.

(** The object the routine resolves with. *)
Record Returned : Type := mkReturned {
  proposalId : BigNumber;
}.

Section WithLibraries.

(** What the provider answers to a submitted transaction, and the receipt
    of a confirmed one; both are opaque to the script. *)
Context {TransactionResponse TransactionReceipt : Type}.

(** [hre.ethers.utils.defaultAbiCoder.encode(types, values)] *)
Variable abi_encode : list string → list jsval → string.

(** [governor.interface.encodeFunctionData(name, proposal)] *)
Variable encodeFunctionData : string → Proposal → string.

(** [getDeployConfig()] *)
Variable deployConfig : DeployConfig.

(** The calls the script makes to the outside world, each with the type
    of its answer. *)
Inductive call : Type → Type :=
| getDeployerSigner : call SignerWithAddress
| log (message : string) : call unit
| getProposalsCount (governor : string) (deployer : SignerWithAddress) :
    call BigNumber
| populateTransaction (deployer : SignerWithAddress)
    (tx : TransactionRequest) : call TransactionRequest
| console_log (line : option string) : call unit
| sendTransaction (deployer : SignerWithAddress)
    (tx : TransactionRequest) : call TransactionResponse
| waitForTx (tx : TransactionResponse) : call TransactionReceipt.

(** An [async] function of the script: it finishes with a value or awaits
    a call and goes on with the answer. *)
Inductive Async (A : Type) : Type :=
| Return (a : A)
| Await {T : Type} (c : call T) (k : T → Async A).
Arguments Return {A} a.
Arguments Await {A T} c k.

Fixpoint bind {A B} (m : Async A) (f : A → Async B) : Async B :=
  match m with
  | Return a => f a
  | Await c k => Await c (λ t, bind (k t) f)
  end.

Definition await {T} (c : call T) : Async T := Await c Return.

Notation "'let*' x ':=' m 'in' k" := (bind m (λ x, k))
  (at level 10, x name, m at level 100, k at level 200).
Notation "'do*' m 'in' k" := (bind m (λ _, k))
  (at level 10, m at level 100, k at level 200).

Definition newline : string := String (Ascii.ascii_of_nat 10) EmptyString.

Definition transfer_signature : string :=
  "transfer(address,address,uint256)".

(** [const proposal: Proposal = [...]] *)
Definition proposal (a : Args) : Proposal :=
  (shortTimelockAddress a,
   [communityTreasuryAddress a],
   ["0"],
   [transfer_signature],
   [abi_encode
      ["address"; "address"; "uint256"]
      [JString (dydxTokenAddress a);
       JString (DGP_MULTISIG_ADDRESS deployConfig);
       DGP_FUNDING_AMOUNT deployConfig]],
   [false],
   proposalIpfsHashHex a).

(** [const partialTxRequest: TransactionRequest = {to, from, data}] *)
Definition partialTxRequest (a : Args) (deployer : SignerWithAddress) :
  TransactionRequest :=
  {| to := Some (governorAddress a);
     from := Some (address deployer);
     data := Some (encodeFunctionData "create" (proposal a));
     nonce := None; gasLimit := None; gasPrice := None; chainId := None |}.

(** [export async function createGrantsProgramProposal({...})] *)
Definition createGrantsProgramProposal (a : Args) : Async Returned :=
  let* deployer :=
    match signer a with
    | Some s => Return s
    | None => await getDeployerSigner
    end in
  let deployerAddress := address deployer in
  do* await (log ("Creating Grants Program proposal with proposer "
                  +:+ deployerAddress +:+ "." +:+ newline)) in
  let* proposalId := await (getProposalsCount (governorAddress a) deployer) in
  let* txRequest := await (populateTransaction deployer (partialTxRequest a deployer)) in
  do* await (console_log (Some "Calldata:")) in
  do* await (console_log (data txRequest)) in
  do* await (console_log (Some "End calldata:")) in
  let* response := await (sendTransaction deployer txRequest) in
  do* await (waitForTx response) in
  Return {| proposalId := proposalId |}.

(** *** Running a script against the outside world *)

(** How the world, in state [S], answers a call: with a value or a
    rejection, and a new state. *)
Definition handler (S : Type) : Type :=
  ∀ T, call T → S → result T * S.

(** One awaited call and what came back. *)
Inductive entry : Type :=
| Called {T : Type} (c : call T) (answer : result T).

Fixpoint run {S A} (h : handler S) (m : Async A) (s : S) :
  result A * S * list entry :=
  match m with
  | Return a => (Ok a, s, [])
  | Await c k =>
      match h _ c s with
      | (Ok t, s') =>
          let '(r, s'', tr) := run h (k t) s' in
          (r, s'', Called c (Ok t) :: tr)
      | (Throw e, s') => (Throw e, s', [Called c (Throw e)])
      end
  end.

(** The requests handed to [populateTransaction] and to
    [sendTransaction] in a trace. *)
Definition populated (e : entry) : list TransactionRequest :=
  match e with
  | @Called _ (populateTransaction _ tx) _ => [tx]
  | _ => []
  end.

Definition sent (e : entry) : list TransactionRequest :=
  match e with
  | @Called _ (sendTransaction _ tx) _ => [tx]
  | _ => []
  end.

(** The answers to [getProposalsCount] in a trace. *)
Definition counts (e : entry) : list BigNumber :=
  match e with
  | @Called _ (getProposalsCount _ _) (Ok n) => [n]
  | _ => []
  end.

(** The calls of a run in which every call is answered, in order:
    [resolved] holds the answer of [getDeployerSigner] when the caller
    passed no signer. *)
Definition answered_calls (a : Args) (resolved : list entry)
  (deployer : SignerWithAddress) (count : BigNumber)
  (tx : TransactionRequest) (response : TransactionResponse)
  (receipt : TransactionReceipt) : list entry :=
  resolved ++
  [Called (log ("Creating Grants Program proposal with proposer "
                +:+ address deployer +:+ "." +:+ newline)) (Ok tt);
   Called (getProposalsCount (governorAddress a) deployer) (Ok count);
   Called (populateTransaction deployer (partialTxRequest a deployer)) (Ok tx);
   Called (console_log (Some "Calldata:")) (Ok tt);
   Called (console_log (data tx)) (Ok tt);
   Called (console_log (Some "End calldata:")) (Ok tt);
   Called (sendTransaction deployer tx) (Ok response);
   Called (waitForTx response) (Ok receipt)].

(** How the deployer of a run came about. *)
Definition resolution (a : Args) (resolved : list entry)
  (deployer : SignerWithAddress) : Prop :=
  match signer a with
  | Some s => deployer = s ∧ resolved = []
  | None => resolved = [Called getDeployerSigner (Ok deployer)]
  end.

End WithLibraries.

Arguments Return {_ _ A} a.
Arguments Await {_ _ A T} c k.
Arguments Called {_ _ T} c answer.

(** *** A network with a governor *)

(** Modelled from the spec: the state of the governor contract and of the
    provider, which are not among the sources: the number of proposals
    ("getProposalsCount() -> integer"), the transactions submitted and not
    yet confirmed, the height of the chain and the lines printed. *)
Record Network : Type := mkNetwork {
  proposalsCount : Z;
  mempool : list TransactionRequest;
  height : Z;
  console : list (option string);
}.

Definition deployerSigner : SignerWithAddress :=
  {| address := "0xdeployer" |}.

(** Modelled from the spec: the answers of the governor contract and of the
    provider, which are not among the sources.  "create(...) -> transaction
    receipt": a submitted transaction waits in the pool, and its
    confirmation creates one proposal. *)
Definition network : @handler TransactionRequest Z Network :=
  λ T c,
    match c in call T return Network → result T * Network with
    | getDeployerSigner => λ s, (Ok deployerSigner, s)
    | log message => λ s, (Ok tt, s)
    | getProposalsCount _ _ => λ s, (Ok (proposalsCount s), s)
    | populateTransaction _ tx => λ s,
        (Ok {| to := to tx; from := from tx; data := data tx;
               nonce := Some 0; gasLimit := Some 1000000;
               gasPrice := Some 1; chainId := Some 31337 |}, s)
    | console_log line => λ s,
        (Ok tt, {| proposalsCount := proposalsCount s; mempool := mempool s;
                   height := height s; console := console s ++ [line] |})
    | sendTransaction _ tx => λ s,
        (Ok tx, {| proposalsCount := proposalsCount s;
                   mempool := mempool s ++ [tx];
                   height := height s; console := console s |})
    | waitForTx tx => λ s,
        (Ok (height s + 1),
         {| proposalsCount := proposalsCount s + Z.of_nat (length (mempool s));
            mempool := [];
            height := height s + 1; console := console s |})
    end.

Definition quiet : Network :=
  {| proposalsCount := 7; mempool := []; height := 100; console := [] |}.

Definition grantsArgs : Args :=
  {| proposalIpfsHashHex := "0xipfs";
     dydxTokenAddress := "0xtoken";
     governorAddress := "0xgovernor";
     shortTimelockAddress := "0xtimelock";
     communityTreasuryAddress := "0xtreasury";
     signer := None |}.

Definition grantsConfig : DeployConfig :=
  {| DGP_MULTISIG_ADDRESS := "0xmultisig";
     DGP_FUNDING_AMOUNT := JString "6250000000000000000000000" |}.

(** Stand-ins for the two encoders: they keep their arguments apart. *)
Definition join (parts : list string) : string :=
  foldr (λ p acc, p +:+ "," +:+ acc) "" parts.

Definition show (v : jsval) : string :=
  match v with
  | JString s => s
  | JNumber n => pretty n
  | JBigNumber b => pretty b
  | JBoolean b => if b then "true" else "false"
  end.

Definition toy_abi_encode (types : list string) (values : list jsval) : string :=
  join types +:+ "|" +:+ join (show <$> values).

Definition toy_encodeFunctionData (name : string) (p : Proposal) : string :=
  let '(executor, targets, values, signatures, calldatas, flags, ipfs) := p in
  name +:+ "(" +:+ join [executor; join targets; join values;
                         join signatures; join calldatas; ipfs] +:+ ")".

End Migration.

(** ** The safety module as the test suite sees it

    The staking contract, the token and the [TxBuilder] service belong to the
    repository but are not among the sources; the test suite only calls
    them. *)

Module SafetyModule.
Import JS Evm.

(** Modelled from the spec: the bookkeeping of the staking contract and the
    token, which are not among the sources, for one address and in the
    token's smallest unit: the free token balance, the stake that is not
    being withdrawn, the stake whose withdrawal was requested in epoch
    [requested_in] ("pending-withdraw"), and the stake that may be withdrawn
    ("available-to-withdraw"). *)
Record Account : Type := mkAccount {
  balance : Z;
  active : Z;
  pending : Z;
  requested_in : Z;
  withdrawable : Z;
}.

Definition no_account : Account := mkAccount 0 0 0 0 0.

(** Modelled from the spec: the storage of the staking contract, which is
    not among the sources: the "epoch parameters", the "blackout window
    length", the total of the active stakes and the accounts. *)
Record Storage : Type := mkStorage {
  interval : Z;
  offset : Z;
  blackoutWindow : Z;
  totalActive : Z;
  accounts : gmap string Account;
}.

Definition account (s : Storage) (who : string) : Account :=
  default no_account (accounts s !! who).

Definition set_account (who : string) (a : Account) (delta : Z) (s : Storage) :
  Storage :=
  {| interval := interval s; offset := offset s;
     blackoutWindow := blackoutWindow s;
     totalActive := totalActive s + delta;
     accounts := <[who := a]> (accounts s) |}.

Definition with_storage (s : Storage) (c : Chain Storage) : Chain Storage :=
  {| clock := clock c; blocks := blocks c; storage := s |}.

(** Modelled from the spec: the number of the current epoch in the staking
    contract, which is not among the sources.  "Epoch: a fixed-length time
    window". *)
Definition currentEpoch (c : Chain Storage) : Z :=
  (clock c - offset (storage c)) / interval (storage c).

(** Modelled from the spec: [getTimeRemainingInCurrentEpoch] of the staking
    contract, which is not among the sources.  "remaining seconds in the
    current reward epoch". *)
Definition getTimeRemainingInCurrentEpoch (c : Chain Storage) : BigNumber :=
  interval (storage c)
  - (clock c - offset (storage c)) mod interval (storage c).

(** Modelled from the spec: the account as of epoch [e] in the staking
    contract, which is not among the sources.  A withdrawal requested in an
    earlier epoch has become available: "after one epoch,
    available-to-withdraw". *)
Definition settle (e : Z) (a : Account) : Account :=
  if requested_in a <? e
  then {| balance := balance a; active := active a; pending := 0;
          requested_in := e; withdrawable := withdrawable a + pending a |}
  else a.

Definition settled (c : Chain Storage) (who : string) : Account :=
  settle (currentEpoch c) (account (storage c) who).

(** The transactions the service builds. *)
Inductive transaction : Type :=
| Stake (amount : Z)
| RequestWithdrawal (amount : Z)
| WithdrawStake (amount : Z)
| WithdrawMaxStake.

Definition revert {A} (reason : string) : result A := Throw (Error reason).

(** Modelled from the spec: the entry points of the staking contract, which
    is not among the sources.  Staking moves tokens from the free balance
    into the stake; a withdrawal request is "disallowed" in the blackout
    window, "a trailing portion of each epoch", and makes the amount
    pending "immediately"; a withdrawal pays out of what is available, the
    "max" variant all of it ("withdraw all eligible"). *)
Definition execute (sender : string) (t : transaction) (c : Chain Storage) :
  result (Chain Storage) :=
  let s := storage c in
  let a := settled c sender in
  match t with
  | Stake amount =>
      if (0 <? amount) && (amount <=? balance a)
      then Ok (with_storage
                 (set_account sender
                    {| balance := balance a - amount;
                       active := active a + amount;
                       pending := pending a;
                       requested_in := requested_in a;
                       withdrawable := withdrawable a |} amount s) c)
      else revert "stake"
  | RequestWithdrawal amount =>
      if (0 <? amount) && (amount <=? active a)
         && (blackoutWindow s <? getTimeRemainingInCurrentEpoch c)
      then Ok (with_storage
                 (set_account sender
                    {| balance := balance a;
                       active := active a - amount;
                       pending := pending a + amount;
                       requested_in := currentEpoch c;
                       withdrawable := withdrawable a |} (- amount) s) c)
      else revert "requestWithdrawal"
  | WithdrawStake amount =>
      if (0 <=? amount) && (amount <=? withdrawable a)
      then Ok (with_storage
                 (set_account sender
                    {| balance := balance a + amount;
                       active := active a;
                       pending := pending a;
                       requested_in := requested_in a;
                       withdrawable := withdrawable a - amount |} 0 s) c)
      else revert "withdrawStake"
  | WithdrawMaxStake =>
      Ok (with_storage
            (set_account sender
               {| balance := balance a + withdrawable a;
                  active := active a;
                  pending := pending a;
                  requested_in := requested_in a;
                  withdrawable := 0 |} 0 s) c)
  end.

(** [tStringDecimalUnits]: an amount written as a decimal numeral.  The
    numerals that [formatUnits] writes are canonical, so a numeral is
    modelled by the rational number it denotes. *)
Definition tStringDecimalUnits : Type := Qc.

(** [formatUnits(value, decimals)] of ethers: the numeral of
    [value / 10^decimals]. *)
Definition formatUnits (value : BigNumber) (decimals : Z) : tStringDecimalUnits :=
  Q2Qc (value # Z.to_pos (10 ^ decimals)).

Section Service.

(** [DYDX_TOKEN_DECIMALS] of [src/tx-builder/config], which is not among
    the sources. *)
Variable DYDX_TOKEN_DECIMALS : Z.

(** Modelled from the spec: [parseNumberToEthersBigNumber] of
    [src/tx-builder/utils/parsings], which is not among the sources, at the
    token's decimals and for a whole amount: "converted to token decimal
    units". *)
Definition parseNumberToEthersBigNumber (amount : Z) : BigNumber :=
  amount * 10 ^ DYDX_TOKEN_DECIMALS.

(** Modelled from the spec: [safetyModuleService.stake] of the [TxBuilder],
    which is not among the sources.  The amount is given in whole tokens. *)
Definition stake (amount : Z) : list transaction :=
  [Stake (parseNumberToEthersBigNumber amount)].

(** Modelled from the spec: [safetyModuleService.requestWithdrawal] of the
    [TxBuilder], which is not among the sources. *)
Definition requestWithdrawal (amount : Z) : list transaction :=
  [RequestWithdrawal (parseNumberToEthersBigNumber amount)].

(** Modelled from the spec: [safetyModuleService.withdrawStake] of the
    [TxBuilder], which is not among the sources.  [-1] is the "sentinel
    meaning withdraw all eligible". *)
Definition withdrawStake (amount : Z) : list transaction :=
  if amount =? -1 then [WithdrawMaxStake]
  else [WithdrawStake (parseNumberToEthersBigNumber amount)].

(** Modelled from the spec: the queries of the [safetyModuleService], which
    is not among the sources; each answers with an amount of tokens as a
    decimal numeral. *)
Definition getTotalStake (c : Chain Storage) : tStringDecimalUnits :=
  formatUnits (totalActive (storage c)) DYDX_TOKEN_DECIMALS.

Definition getUserStake (who : string) (c : Chain Storage) :
  tStringDecimalUnits :=
  formatUnits (active (settled c who)) DYDX_TOKEN_DECIMALS.

Definition getUserStakePendingWithdraw (who : string) (c : Chain Storage) :
  tStringDecimalUnits :=
  formatUnits (pending (settled c who)) DYDX_TOKEN_DECIMALS.

Definition getUserStakeAvailableToWithdraw (who : string) (c : Chain Storage) :
  tStringDecimalUnits :=
  formatUnits (withdrawable (settled c who)) DYDX_TOKEN_DECIMALS.

Definition getUserBalanceOfStakedToken (who : string) (c : Chain Storage) :
  tStringDecimalUnits :=
  formatUnits (balance (settled c who)) DYDX_TOKEN_DECIMALS.

End Service.

End SafetyModule.

(** ** The test cases of [describe('after staking')] *)

Module Suite.
Import JS Evm Harness SafetyModule.

Section WithConstants.

Variable EPOCH_LENGTH : BigNumber.
Variable DYDX_TOKEN_DECIMALS : Z.

(** [staker1.address] *)
Variable staker1 : string.

Notation "'let*' x ':=' m 'in' k" := (bind m (λ x, k))
  (at level 10, x name, m at level 100, k at level 200).
Notation "'do*' m 'in' k" := (bind m (λ _, k))
  (at level 10, m at level 100, k at level 200).

Definition T : Type → Type := M Storage.

Definition afterMockTokenMint : string := "AfterMockTokenMint".
Definition afterStake : string := "AfterStack".
Definition stakerInitialBalanceWei : BigNumber := 10 ^ 24.

(** [const stakeAmount = 1e6]; its [toString()] is the numeral of a whole
    amount, which the embedding hands on as the amount. *)
Definition stakeAmount : number := 1000000.

Definition elapseEpoch : option bool → T unit :=
  Harness.elapseEpoch SafetyModule.getTimeRemainingInCurrentEpoch EPOCH_LENGTH.

(** A transaction sent to the chain: one that reverts rejects and leaves
    the chain as it was. *)
Definition send (sender : string) (t : transaction) : T unit :=
  λ w, match execute sender t (chain (node w)) with
       | Ok c' => (Ok tt, with_chain c' w)
       | Throw e => (Throw e, w)
       end.

(** Modelled from the spec: [sendTransactions(txs, signer)] of
    [test/helpers/tx-builder], which is not among the sources: the
    transactions are sent by the signer, one after the other. *)
Fixpoint sendTransactions (txs : list transaction) (sender : string) : T unit :=
  match txs with
  | [] => ret tt
  | t :: txs' => do* send sender t in sendTransactions txs' sender
  end.

(** [expect(actual).to.equal(expected)] on two decimal numerals. *)
Definition expect_equal (actual expected : tStringDecimalUnits) : T unit :=
  if Qeq_bool actual expected then ret tt
  else throw (Error "AssertionError").

(** [before] of [describe('after staking')] *)
Definition before_after_staking : T unit :=
  do* loadSnapshot afterMockTokenMint in
  let txs := stake DYDX_TOKEN_DECIMALS stakeAmount in
  do* sendTransactions txs staker1 in
  saveSnapshot afterStake.

(** [beforeEach] of [describe('after staking')] *)
Definition beforeEach_after_staking : T unit :=
  loadSnapshot afterStake.

(** [it('Total liquidity module balance is non-zero')] *)
Definition it_total_liquidity : T unit :=
  let* totalLiquidity := view (getTotalStake DYDX_TOKEN_DECIMALS) in
  expect_equal totalLiquidity (formatUnits stakeAmount 0).

(** [it('user stake pending withdraw is non-zero after requesting to
    withdraw')] *)
Definition it_pending_withdraw : T unit :=
  let txs := requestWithdrawal DYDX_TOKEN_DECIMALS stakeAmount in
  do* sendTransactions txs staker1 in
  let* userStakePendingWithdraw :=
    view (getUserStakePendingWithdraw DYDX_TOKEN_DECIMALS staker1) in
  expect_equal userStakePendingWithdraw (formatUnits stakeAmount 0).

(** [it('user stake available to withdraw is non-zero after requesting
    to withdraw and waiting an epoch')] *)
Definition it_available_to_withdraw : T unit :=
  let txs := requestWithdrawal DYDX_TOKEN_DECIMALS stakeAmount in
  do* sendTransactions txs staker1 in
  do* elapseEpoch None in
  let* userStakeToWithdraw :=
    view (getUserStakeAvailableToWithdraw DYDX_TOKEN_DECIMALS staker1) in
  expect_equal userStakeToWithdraw (formatUnits stakeAmount 0).

(** [it('withdraws')] *)
Definition it_withdraws : T unit :=
  let txs := requestWithdrawal DYDX_TOKEN_DECIMALS stakeAmount in
  do* sendTransactions txs staker1 in
  do* elapseEpoch None in
  let txs := withdrawStake DYDX_TOKEN_DECIMALS stakeAmount in
  do* sendTransactions txs staker1 in
  let* balance :=
    view (getUserBalanceOfStakedToken DYDX_TOKEN_DECIMALS staker1) in
  expect_equal balance
    (formatUnits stakerInitialBalanceWei DYDX_TOKEN_DECIMALS).

(** [it('withdraws max')] *)
Definition it_withdraws_max : T unit :=
  let txs := requestWithdrawal DYDX_TOKEN_DECIMALS (stakeAmount / 2) in
  do* sendTransactions txs staker1 in
  do* elapseEpoch None in
  let txs := withdrawStake DYDX_TOKEN_DECIMALS (-1) in
  do* sendTransactions txs staker1 in
  let* balance :=
    view (getUserBalanceOfStakedToken DYDX_TOKEN_DECIMALS staker1) in
  let remainingFundsWei :=
    parseNumberToEthersBigNumber DYDX_TOKEN_DECIMALS (stakeAmount / 2) in
  expect_equal balance
    (formatUnits (stakerInitialBalanceWei - remainingFundsWei)
       DYDX_TOKEN_DECIMALS).

(** The chain as the hooks of the suite leave it before a stake: the
    epoch length is positive and fits a [number], withdrawals may be
    requested, nothing is staked, and [staker1] holds the initial
    balance. *)
Definition minted (c : Chain Storage) : Prop :=
  0 < interval (storage c) <= MAX_SAFE_INTEGER
  ∧ blackoutWindow (storage c) < SafetyModule.getTimeRemainingInCurrentEpoch c
  ∧ totalActive (storage c) = 0
  ∧ balance (settled c staker1) = stakerInitialBalanceWei
  ∧ active (settled c staker1) = 0
  ∧ pending (settled c staker1) = 0
  ∧ withdrawable (settled c staker1) = 0.

(** The chain after [staker1] has staked [stakeAmount] tokens. *)
Definition staked (c : Chain Storage) : Prop :=
  0 < interval (storage c) <= MAX_SAFE_INTEGER
  ∧ blackoutWindow (storage c) < SafetyModule.getTimeRemainingInCurrentEpoch c
  ∧ totalActive (storage c)
    = parseNumberToEthersBigNumber DYDX_TOKEN_DECIMALS stakeAmount
  ∧ balance (settled c staker1)
    = stakerInitialBalanceWei
      - parseNumberToEthersBigNumber DYDX_TOKEN_DECIMALS stakeAmount
  ∧ active (settled c staker1)
    = parseNumberToEthersBigNumber DYDX_TOKEN_DECIMALS stakeAmount
  ∧ pending (settled c staker1) = 0
  ∧ withdrawable (settled c staker1) = 0.

(** The staked chain after [staker1] has requested the withdrawal of
    [amount], and a chain after the rest of its epoch has passed and a
    block was mined. *)
Definition after_request (amount : Z) (c : Chain Storage) : Chain Storage :=
  with_storage
    (set_account staker1
       {| balance :=
            stakerInitialBalanceWei
            - parseNumberToEthersBigNumber DYDX_TOKEN_DECIMALS stakeAmount;
          active :=
            parseNumberToEthersBigNumber DYDX_TOKEN_DECIMALS stakeAmount
            - amount;
          pending := amount;
          requested_in := currentEpoch c;
          withdrawable := 0 |}
       (- amount) (storage c)) c.

Definition after_epoch (c : Chain Storage) : Chain Storage :=
  mine (advance (SafetyModule.getTimeRemainingInCurrentEpoch c) c).

(** The cases of [describe('after staking')] that stake, request a
    withdrawal and withdraw, in the order in which they run, each after
    the [beforeEach] hook, all after the [before] hook. *)
Definition withdrawal_cases : T unit :=
  do* before_after_staking in
  do* beforeEach_after_staking in
  do* it_total_liquidity in
  do* beforeEach_after_staking in
  do* it_pending_withdraw in
  do* beforeEach_after_staking in
  do* it_available_to_withdraw in
  do* beforeEach_after_staking in
  it_withdraws.

Definition withdraw_max_case : T unit :=
  do* before_after_staking in
  do* beforeEach_after_staking in
  it_withdraws_max.

End WithConstants.

(** A chain on which the deployer has handed [staker1] the initial
    balance, at the start of an epoch of four weeks with a blackout window
    of two weeks, saved as [afterMockTokenMint]. *)
Definition funded : World Storage :=
  snd (saveSnapshot afterMockTokenMint
    {| snapshots := ∅;
       node :=
         {| chain :=
              {| clock := 1700000000 + 2 * four_weeks;
                 blocks := [];
                 storage :=
                   {| interval := four_weeks;
                      offset := 1700000000;
                      blackoutWindow := 1209600;
                      totalActive := 0;
                      accounts :=
                        {[ "0xstaker1" :=
                             mkAccount stakerInitialBalanceWei 0 0 0 0 ]} |} |};
            captured := [] |} |}).

End Suite.

(** ** What a trace of the migration script shows *)

Module Trace.
Import JS Migration.

Section WithTypes.

Context {TransactionResponse TransactionReceipt : Type}.

Local Abbreviation entry := (@entry TransactionResponse TransactionReceipt).

(** Whether a call was answered rather than rejected. *)
Definition answered (e : entry) : bool :=
  match e with
  | Called _ (Ok _) => true
  | Called _ (Throw _) => false
  end.

(** What came back from [getDeployerSigner()]. *)
Definition resolutions (e : entry) : list (result SignerWithAddress) :=
  match e with
  | Called getDeployerSigner r => [r]
  | _ => []
  end.

(** The signer a call was made with. *)
Definition signers_used (e : entry) : list SignerWithAddress :=
  match e with
  | Called (getProposalsCount _ d) _ => [d]
  | Called (populateTransaction d _) _ => [d]
  | Called (sendTransaction d _) _ => [d]
  | _ => []
  end.

(** The requests that [populateTransaction] answered with. *)
Definition populate_answers (e : entry) : list TransactionRequest :=
  match e with
  | Called (populateTransaction _ _) (Ok tx) => [tx]
  | _ => []
  end.

(** What [sendTransaction] answered with, and what [waitForTx] was called
    on. *)
Definition send_answers (e : entry) : list TransactionResponse :=
  match e with
  | Called (sendTransaction _ _) (Ok response) => [response]
  | _ => []
  end.

Definition waited (e : entry) : list TransactionResponse :=
  match e with
  | Called (waitForTx response) _ => [response]
  | _ => []
  end.

End WithTypes.

(** The modelled network, except that the provider refuses every
    submission. *)
Definition refusing : @handler TransactionRequest Z Network :=
  λ T c s,
    match c in call T0 return result T0 * Network → result T0 * Network with
    | sendTransaction _ _ => λ _, (Throw (Error "insufficient funds"), s)
    | _ => λ answer, answer
    end (network T c s).

End Trace.

(** ** More test cases of [safety-module.spec.ts] *)

Module Cases.
Import JS Evm Harness SafetyModule Suite.

Section WithConstants.

Variable EPOCH_LENGTH : BigNumber.
Variable DYDX_TOKEN_DECIMALS : Z.
Variable staker1 : string.

Notation "'let*' x ':=' m 'in' k" := (bind m (λ x, k))
  (at level 10, x name, m at level 100, k at level 200).
Notation "'do*' m 'in' k" := (bind m (λ _, k))
  (at level 10, m at level 100, k at level 200).

(** The numeral ['0.0']. *)
Definition zero_point_zero : tStringDecimalUnits := Q2Qc 0.

(** [beforeEach] of [describe('before staking')] *)
Definition beforeEach_before_staking : T unit :=
  loadSnapshot afterMockTokenMint.

(** [it('Total liquidity module balance starts at 0')] *)
Definition it_total_liquidity_starts_at_0 : T unit :=
  let* totalLiquidity := view (getTotalStake DYDX_TOKEN_DECIMALS) in
  expect_equal totalLiquidity zero_point_zero.

(** [it('User stake starts at 0')] *)
Definition it_user_stake_starts_at_0 : T unit :=
  let* userStake := view (getUserStake DYDX_TOKEN_DECIMALS staker1) in
  expect_equal userStake zero_point_zero.

(** [it('User stake pending withdraw starts at 0')] *)
Definition it_pending_withdraw_starts_at_0 : T unit :=
  let* userStakePendingWithdraw :=
    view (getUserStakePendingWithdraw DYDX_TOKEN_DECIMALS staker1) in
  expect_equal userStakePendingWithdraw zero_point_zero.

(** [it('User stake available to withdraw starts at 0')] *)
Definition it_available_to_withdraw_starts_at_0 : T unit :=
  let* userStakeToWithdraw :=
    view (getUserStakeAvailableToWithdraw DYDX_TOKEN_DECIMALS staker1) in
  expect_equal userStakeToWithdraw zero_point_zero.

(** [it('Stakes DYDX token in the safety module')] *)
Definition it_stakes : T unit :=
  let stakeAmount : number := 1000000 in
  let txs := stake DYDX_TOKEN_DECIMALS stakeAmount in
  do* sendTransactions txs staker1 in
  let* balance :=
    view (getUserBalanceOfStakedToken DYDX_TOKEN_DECIMALS staker1) in
  let stakeAmountWei :=
    parseNumberToEthersBigNumber DYDX_TOKEN_DECIMALS stakeAmount in
  expect_equal balance
    (formatUnits (stakerInitialBalanceWei - stakeAmountWei)
       DYDX_TOKEN_DECIMALS).

(** [it('User stake is non-zero')] of [describe('after staking')] *)
Definition it_user_stake : T unit :=
  let* userStake := view (getUserStake DYDX_TOKEN_DECIMALS staker1) in
  expect_equal userStake (formatUnits stakeAmount 0).

(** The cases of [describe('before staking')] that only use the stake
    bookkeeping. *)
Inductive before_case : Type :=
| TotalLiquidityStartsAt0
| UserStakeStartsAt0
| PendingWithdrawStartsAt0
| AvailableToWithdrawStartsAt0
| StakesToken.

Definition before_case_body (c : before_case) : T unit :=
  match c with
  | TotalLiquidityStartsAt0 => it_total_liquidity_starts_at_0
  | UserStakeStartsAt0 => it_user_stake_starts_at_0
  | PendingWithdrawStartsAt0 => it_pending_withdraw_starts_at_0
  | AvailableToWithdrawStartsAt0 => it_available_to_withdraw_starts_at_0
  | StakesToken => it_stakes
  end.

(** The cases of [describe('after staking')] that only use the stake
    bookkeeping. *)
Inductive after_case : Type :=
| TotalLiquidity
| UserStake
| PendingWithdraw
| AvailableToWithdraw
| Withdraws
| WithdrawsMax.

Definition after_case_body (c : after_case) : T unit :=
  match c with
  | TotalLiquidity => it_total_liquidity DYDX_TOKEN_DECIMALS
  | UserStake => it_user_stake
  | PendingWithdraw => it_pending_withdraw DYDX_TOKEN_DECIMALS staker1
  | AvailableToWithdraw =>
      it_available_to_withdraw EPOCH_LENGTH DYDX_TOKEN_DECIMALS staker1
  | Withdraws => it_withdraws EPOCH_LENGTH DYDX_TOKEN_DECIMALS staker1
  | WithdrawsMax => it_withdraws_max EPOCH_LENGTH DYDX_TOKEN_DECIMALS staker1
  end.

(** Cases run one after the other, each after the [beforeEach] hook; the
    run stops at the first hook or case that rejects. *)
Fixpoint run_cases {C : Type} (beforeEach : T unit) (body : C → T unit)
  (cases : list C) : T unit :=
  match cases with
  | [] => ret tt
  | c :: cases' =>
      do* beforeEach in
      do* body c in
      run_cases beforeEach body cases'
  end.

Definition describe_before_staking (cases : list before_case) : T unit :=
  run_cases beforeEach_before_staking before_case_body cases.

Definition describe_after_staking (cases : list after_case) : T unit :=
  do* before_after_staking DYDX_TOKEN_DECIMALS staker1 in
  run_cases beforeEach_after_staking after_case_body cases.

End WithConstants.

End Cases.

(** * Properties *)

(** ** JavaScript values *)

Module JSFacts.
Import JS.

Lemma toNumber_safe b :
  Z.abs b <= MAX_SAFE_INTEGER → toNumber b = Ok b.
Proof.
  intros Hb. unfold toNumber.
  destruct (Z.leb_spec (Z.abs b) MAX_SAFE_INTEGER); [reflexivity | lia].
Qed.

Lemma toNumber_overflow b :
  MAX_SAFE_INTEGER < Z.abs b → toNumber b = Throw (NumericFault "toNumber" b).
Proof.
  intros Hb. unfold toNumber.
  destruct (Z.leb_spec (Z.abs b) MAX_SAFE_INTEGER); [lia | reflexivity].
Qed.

Lemma truthy_string_Some s : truthy_string (Some s) = true ↔ s ≠ "".
Proof.
  simpl. destruct (String.eqb_spec s ""); simpl; split; intros; congruence.
Qed.

End JSFacts.

(** ** The simulated network *)

Module EvmFacts.
Import JS Evm.

Lemma prefix_0x_inj (s s' : string) : "0x" +:+ s = "0x" +:+ s' → s = s'.
Proof. simpl. intros [= H]. exact H. Qed.

Lemma handle_of_inj i j : handle_of i = handle_of j → i = j.
Proof.
  unfold handle_of. intros H. apply prefix_0x_inj in H.
  exact (inj pretty _ _ H).
Qed.

Lemma handle_of_truthy i : truthy_string (Some (handle_of i)) = true.
Proof. reflexivity. Qed.

Section WithStorage.
Context {Storage : Type}.
Implicit Types (c : Chain Storage) (cs : list (Chain Storage)) (n : Node Storage).

Lemma resolve_from_Some i cs h c :
  resolve_from i cs h = Some c →
  ∃ j : nat, (i <= j < i + length cs)%nat ∧ h = handle_of j.
Proof.
  revert i. induction cs as [|c0 cs IH]; intros i; simpl; [discriminate|].
  destruct (decide (handle_of i = h)) as [<-|Hne].
  - intros _. exists i. split; [lia | reflexivity].
  - intros H. destruct (IH _ H) as (j & Hj & ->).
    exists j. split; [lia | reflexivity].
Qed.

Lemma resolve_from_fresh i cs k :
  (i + length cs <= k)%nat → resolve_from i cs (handle_of k) = None.
Proof.
  intros Hk. destruct (resolve_from i cs (handle_of k)) eqn:E; [|reflexivity].
  apply resolve_from_Some in E as (j & Hj & Heq).
  apply handle_of_inj in Heq. lia.
Qed.

Lemma resolve_from_app_l i cs cs' h c :
  resolve_from i cs h = Some c → resolve_from i (cs ++ cs') h = Some c.
Proof.
  revert i. induction cs as [|c0 cs IH]; intros i; simpl; [discriminate|].
  destruct (decide (handle_of i = h)); [trivial | apply IH].
Qed.

Lemma resolve_from_snoc i cs c :
  resolve_from i (cs ++ [c]) (handle_of (i + length cs)) = Some c.
Proof.
  revert i. induction cs as [|c0 cs IH]; intros i; simpl.
  - rewrite Nat.add_0_r. destruct (decide _); [reflexivity | contradiction].
  - destruct (decide _) as [Heq|_].
    + apply handle_of_inj in Heq. lia.
    + replace (i + S (length cs))%nat with (S i + length cs)%nat by lia.
      apply IH.
Qed.

(** A handle the node resolves is truthy in JavaScript. *)
Lemma resolve_truthy n h c :
  resolve n h = Some c → truthy_string (Some h) = true.
Proof.
  intros H. apply resolve_from_Some in H as (j & _ & ->).
  apply handle_of_truthy.
Qed.

(** The handle of a new snapshot was not in use, stands for the current
    chain state afterwards, and leaves the older handles as they were. *)
Lemma evmSnapshot_fresh n : resolve n (fst (evmSnapshot n)) = None.
Proof. apply resolve_from_fresh. simpl. lia. Qed.

Lemma evmSnapshot_captures n :
  resolve (snd (evmSnapshot n)) (fst (evmSnapshot n)) = Some (chain n).
Proof. apply (resolve_from_snoc 0). Qed.

Lemma evmSnapshot_keeps n h c :
  resolve n h = Some c → resolve (snd (evmSnapshot n)) h = Some c.
Proof. apply resolve_from_app_l. Qed.

Lemma evmSnapshot_chain n : chain (snd (evmSnapshot n)) = chain n.
Proof. reflexivity. Qed.

Lemma evmRevert_known n h c :
  resolve n h = Some c →
  evmRevert h n = (true, {| chain := c; captured := captured n |}).
Proof. intros H. unfold evmRevert. rewrite H. reflexivity. Qed.

Lemma evmRevert_unknown n h :
  resolve n h = None → evmRevert h n = (false, n).
Proof. intros H. unfold evmRevert. rewrite H. reflexivity. Qed.

End WithStorage.

End EvmFacts.

(** ** The test harness *)

Module HarnessFacts.
Import JS Evm Harness JSFacts EvmFacts.

Section WithContract.

Context {Storage : Type}.
Variable getTimeRemainingInCurrentEpoch : Chain Storage → BigNumber.
Variable EPOCH_LENGTH : BigNumber.
Implicit Types (w : World Storage) (c : Chain Storage).

Local Abbreviation elapseEpoch :=
  (elapseEpoch getTimeRemainingInCurrentEpoch EPOCH_LENGTH).
Local Abbreviation elapsed :=
  (elapsed getTimeRemainingInCurrentEpoch EPOCH_LENGTH).

(** *** [elapseEpoch] *)

(** What a call does, whatever the contract reports: the report is
    converted first, and [EPOCH_LENGTH] only when the report is zero. *)
Lemma elapseEpoch_unfold mineBlock w :
  elapseEpoch mineBlock w =
  match toNumber (getTimeRemainingInCurrentEpoch (chain (node w))) with
  | Ok remaining =>
      match (if remaining =? 0 then toNumber EPOCH_LENGTH else Ok remaining) with
      | Ok remaining =>
          (Ok tt,
           {| snapshots := snapshots w;
              node := if default true mineBlock
                      then increaseTimeAndMine remaining (node w)
                      else increaseTime remaining (node w) |})
      | Throw e => (Throw e, w)
      end
  | Throw e => (Throw e, w)
  end.
Proof.
  unfold Harness.elapseEpoch, bind, view, lift, ret, truthy_number.
  destruct (toNumber _) as [remaining|e]; [|reflexivity].
  destruct (remaining =? 0); simpl.
  - destruct (toNumber EPOCH_LENGTH); [|reflexivity].
    destruct (default true mineBlock); reflexivity.
  - destruct (default true mineBlock); reflexivity.
Qed.

(** The amount a call advances by once both conversions are through. *)
Lemma elapseEpoch_safe mineBlock w :
  Z.abs (getTimeRemainingInCurrentEpoch (chain (node w))) <= MAX_SAFE_INTEGER →
  (getTimeRemainingInCurrentEpoch (chain (node w)) = 0 →
   Z.abs EPOCH_LENGTH <= MAX_SAFE_INTEGER) →
  elapseEpoch mineBlock w =
  (Ok tt,
   {| snapshots := snapshots w;
      node := (if default true mineBlock then increaseTimeAndMine else increaseTime)
                (if getTimeRemainingInCurrentEpoch (chain (node w)) =? 0
                 then EPOCH_LENGTH
                 else getTimeRemainingInCurrentEpoch (chain (node w)))
                (node w) |}).
Proof.
  intros Hr He. rewrite elapseEpoch_unfold, (toNumber_safe _ Hr).
  destruct (Z.eqb_spec (getTimeRemainingInCurrentEpoch (chain (node w))) 0)
    as [Hz|Hnz].
  - rewrite (toNumber_safe _ (He Hz)).
    destruct (default true mineBlock); reflexivity.
  - destruct (default true mineBlock); reflexivity.
Qed.

(** A zero report with an [EPOCH_LENGTH] that does not fit a [number]
    makes the call reject before any time passes. *)
Lemma elapseEpoch_overflow_fallback mineBlock w :
  getTimeRemainingInCurrentEpoch (chain (node w)) = 0 →
  MAX_SAFE_INTEGER < Z.abs EPOCH_LENGTH →
  elapseEpoch mineBlock w = (Throw (NumericFault "toNumber" EPOCH_LENGTH), w).
Proof.
  intros Hz He. rewrite elapseEpoch_unfold, Hz. simpl.
  rewrite (toNumber_overflow _ He). reflexivity.
Qed.

Lemma clock_increaseTime secs (n : Node Storage) :
  clock (chain (increaseTime secs n)) = clock (chain n) + secs.
Proof. reflexivity. Qed.

Lemma clock_increaseTimeAndMine secs (n : Node Storage) :
  clock (chain (increaseTimeAndMine secs n)) = clock (chain n) + secs.
Proof. reflexivity. Qed.

(** A report that does not fit a [number] makes the call reject before
    any time passes. *)
Lemma elapseEpoch_overflow mineBlock w :
  MAX_SAFE_INTEGER < Z.abs (getTimeRemainingInCurrentEpoch (chain (node w))) →
  elapseEpoch mineBlock w =
  (Throw (NumericFault "toNumber"
            (getTimeRemainingInCurrentEpoch (chain (node w)))), w).
Proof.
  intros H. rewrite elapseEpoch_unfold, (toNumber_overflow _ H). reflexivity.
Qed.

(** C1, as amended: when the conversions to a JavaScript number that the
    call makes succeed, that is when the remaining time the contract
    reports is at most [2^53 - 1] in absolute value and, if the report is
    zero, so is [EPOCH_LENGTH], a call of [elapseEpoch] resolves and has
    advanced the chain's clock by exactly [EPOCH_LENGTH] if the report is
    zero and by exactly the reported remaining time otherwise, through
    [increaseTimeAndMine] unless [mineBlock] is [false], and through
    [increaseTime] if it is. *)
Theorem elapseEpoch_advances_by mineBlock w :
  Z.abs (getTimeRemainingInCurrentEpoch (chain (node w))) <= MAX_SAFE_INTEGER →
  (getTimeRemainingInCurrentEpoch (chain (node w)) = 0 →
   Z.abs EPOCH_LENGTH <= MAX_SAFE_INTEGER) →
  ∃ w',
    elapseEpoch mineBlock w = (Ok tt, w')
    ∧ clock (chain (node w'))
      = clock (chain (node w))
        + (if getTimeRemainingInCurrentEpoch (chain (node w)) =? 0
           then EPOCH_LENGTH
           else getTimeRemainingInCurrentEpoch (chain (node w)))
    ∧ node w'
      = (if default true mineBlock then increaseTimeAndMine else increaseTime)
          (if getTimeRemainingInCurrentEpoch (chain (node w)) =? 0
           then EPOCH_LENGTH
           else getTimeRemainingInCurrentEpoch (chain (node w)))
          (node w)
    ∧ snapshots w' = snapshots w.
Proof.
  intros Hsafe He. rewrite (elapseEpoch_safe _ _ Hsafe He).
  eexists. split; [reflexivity|]. simpl.
  destruct (default true mineBlock); auto.
Qed.

(** C10, as amended: when the reported remaining time is non-negative
    and at most [2^53 - 1], and [EPOCH_LENGTH] is positive and, if the
    report is zero, at most [2^53 - 1], so that the conversions the call
    makes succeed, a call of [elapseEpoch] resolves and has moved the
    chain's clock strictly forward. *)
Theorem elapseEpoch_strictly_forward mineBlock w :
  0 <= getTimeRemainingInCurrentEpoch (chain (node w)) <= MAX_SAFE_INTEGER →
  0 < EPOCH_LENGTH →
  (getTimeRemainingInCurrentEpoch (chain (node w)) = 0 →
   EPOCH_LENGTH <= MAX_SAFE_INTEGER) →
  ∃ w',
    elapseEpoch mineBlock w = (Ok tt, w')
    ∧ clock (chain (node w)) < clock (chain (node w'))
    ∧ 0 < elapsed mineBlock w.
Proof.
  intros Hr He Hfit. unfold Harness.elapsed.
  assert (Hr' : Z.abs (getTimeRemainingInCurrentEpoch (chain (node w)))
                <= MAX_SAFE_INTEGER) by lia.
  assert (He' : getTimeRemainingInCurrentEpoch (chain (node w)) = 0 →
                Z.abs EPOCH_LENGTH <= MAX_SAFE_INTEGER).
  { intros Hz. specialize (Hfit Hz). lia. }
  rewrite (elapseEpoch_safe _ _ Hr' He').
  eexists. split; [reflexivity|]. simpl.
  destruct (Z.eqb_spec (getTimeRemainingInCurrentEpoch (chain (node w))) 0);
    destruct (default true mineBlock); simpl; lia.
Qed.

End WithContract.

Section Snapshots.

Context {Storage : Type}.
Implicit Types (w : World Storage) (c : Chain Storage).

(** *** [saveSnapshot] *)

Lemma saveSnapshot_unfold label w :
  saveSnapshot label w =
  (Ok tt,
   {| snapshots := <[label := fst (evmSnapshot (node w))]> (snapshots w);
      node := snd (evmSnapshot (node w)) |}).
Proof. reflexivity. Qed.

Lemma saveSnapshot_saved label w :
  saved (snd (saveSnapshot label w)) label
    (fst (evmSnapshot (node w))) (chain (node w)).
Proof.
  rewrite saveSnapshot_unfold. split; simpl.
  - apply lookup_insert_eq.
  - apply (evmSnapshot_captures (node w)).
Qed.

(** *** [loadSnapshot] *)

Lemma loadSnapshot_falsy label w :
  truthy_string (snapshots w !! label) = false →
  loadSnapshot label w = (Throw (Error (not_saved_message label)), w).
Proof.
  intros H. unfold loadSnapshot, bind, snapshots_get. rewrite H. reflexivity.
Qed.

Lemma loadSnapshot_truthy label h w :
  snapshots w !! label = Some h → h ≠ "" →
  loadSnapshot label w =
  (Ok tt,
   {| snapshots :=
        <[label := fst (evmSnapshot (snd (evmRevert h (node w))))]>
          (snapshots w);
      node := snd (evmSnapshot (snd (evmRevert h (node w)))) |}).
Proof.
  intros Hl Hh. unfold loadSnapshot, bind, snapshots_get.
  rewrite Hl. apply truthy_string_Some in Hh. rewrite Hh. simpl.
  unfold rpc. simpl. destruct (evmRevert h (node w)); reflexivity.
Qed.

(** A load of a label whose handle the node issued for state [c]. *)
Lemma loadSnapshot_known label h c w :
  snapshots w !! label = Some h →
  resolve (node w) h = Some c →
  loadSnapshot label w =
  (Ok tt,
   {| snapshots :=
        <[label := handle_of (length (captured (node w)))]> (snapshots w);
      node := {| chain := c; captured := captured (node w) ++ [c] |} |}).
Proof.
  intros Hl Hc.
  assert (Hh : h ≠ "").
  { apply truthy_string_Some. exact (resolve_truthy _ _ _ Hc). }
  rewrite (loadSnapshot_truthy _ _ _ Hl Hh), (evmRevert_known _ _ _ Hc).
  reflexivity.
Qed.

(** *** The store only holds handles the node issued *)

Lemma consistent_genesis (n : Node Storage) :
  consistent {| snapshots := ∅; node := n |}.
Proof. intros label h. simpl. rewrite lookup_empty. discriminate. Qed.

Lemma consistent_saveSnapshot label w :
  consistent w → consistent (snd (saveSnapshot label w)).
Proof.
  intros Hw l h. rewrite saveSnapshot_unfold. simpl.
  rewrite lookup_insert. case_decide as Hl.
  - intros [= <-]. eexists. apply (resolve_from_snoc 0).
  - intros Hh. destruct (Hw _ _ Hh) as [c Hc].
    exists c. apply resolve_from_app_l. exact Hc.
Qed.

Lemma consistent_loadSnapshot label w :
  consistent w → consistent (snd (loadSnapshot label w)).
Proof.
  intros Hw. destruct (snapshots w !! label) as [h|] eqn:Hl.
  - destruct (Hw _ _ Hl) as [c Hc].
    rewrite (loadSnapshot_known _ _ _ _ Hl Hc). intros l h0. simpl.
    rewrite lookup_insert. case_decide as Hl0.
    + intros [= <-]. eexists. apply (resolve_from_snoc 0).
    + intros Hh. destruct (Hw _ _ Hh) as [c0 Hc0].
      exists c0. apply resolve_from_app_l. exact Hc0.
  - rewrite loadSnapshot_falsy by (rewrite Hl; reflexivity). exact Hw.
Qed.

Lemma consistent_with_chain c w :
  consistent w → consistent (with_chain c w).
Proof. intros Hw. exact Hw. Qed.

(** C3: for a label without a saved handle, [loadSnapshot] rejects with
    an error whose message ends in the label, and leaves the snapshot
    store and the node, hence the chain state, as they were. *)
Theorem loadSnapshot_unknown_label label w :
  snapshots w !! label = None →
  loadSnapshot label w
  = (Throw (Error ("Cannot load since snapshot has not been saved: "
                   +:+ label)), w).
Proof. intros H. apply loadSnapshot_falsy. rewrite H. reflexivity. Qed.

(** C4: in a world whose store only holds handles that the node
    issued, as every world that the suite builds does, a load of a label
    with a saved handle resolves; it has first reverted the node to the
    handle and then taken a new snapshot, so the chain is in the state
    [c] that the handle stood for; the store differs from the old one
    only in that the label now maps to the new handle, which was not in
    use before, is not the old handle, and stands for the state just
    restored. *)
Theorem loadSnapshot_restores_and_resaves label h w :
  consistent w →
  snapshots w !! label = Some h →
  ∃ c h' w',
    resolve (node w) h = Some c
    ∧ loadSnapshot label w = (Ok tt, w')
    ∧ node w' = snd (evmSnapshot (snd (evmRevert h (node w))))
    ∧ chain (node w') = c
    ∧ snapshots w' = <[label := h']> (snapshots w)
    ∧ resolve (node w) h' = None
    ∧ h' ≠ h
    ∧ resolve (node w') h' = Some (chain (node w')).
Proof.
  intros Hw Hl. destruct (Hw _ _ Hl) as [c Hc].
  rewrite (loadSnapshot_known _ _ _ _ Hl Hc), (evmRevert_known _ _ _ Hc).
  eexists c, _, _. split; [exact Hc|]. split; [reflexivity|]. simpl.
  split; [reflexivity|]. split; [reflexivity|]. split; [reflexivity|].
  assert (Hfresh : resolve (node w) (handle_of (length (captured (node w))))
                   = None) by apply (evmSnapshot_fresh (node w)).
  split; [exact Hfresh|]. split; [congruence|].
  apply (resolve_from_snoc 0).
Qed.

(** A load only resolves for a label whose handle is a non-empty string. *)
Lemma loadSnapshot_Ok_inv label w w' :
  loadSnapshot label w = (Ok tt, w') →
  ∃ h, snapshots w !! label = Some h ∧ h ≠ "".
Proof.
  destruct (truthy_string (snapshots w !! label)) eqn:Ht.
  - intros _. destruct (snapshots w !! label) as [h|]; [|discriminate].
    exists h. split; [reflexivity | apply truthy_string_Some, Ht].
  - rewrite (loadSnapshot_falsy _ _ Ht). discriminate.
Qed.

(** After a load the label is saved again, for the same chain state. *)
Lemma loadSnapshot_saved label h c w :
  saved w label h c →
  ∃ h' w',
    loadSnapshot label w = (Ok tt, w')
    ∧ chain (node w') = c
    ∧ saved w' label h' c.
Proof.
  intros [Hl Hc]. rewrite (loadSnapshot_known _ _ _ _ Hl Hc).
  eexists _, _. split; [reflexivity|]. split; [reflexivity|].
  split; simpl; [apply lookup_insert_eq | apply (resolve_from_snoc 0)].
Qed.

(** Another label keeps the state it was saved for. *)
Lemma loadSnapshot_keeps label h c other h0 c0 w :
  saved w label h c →
  saved w other h0 c0 →
  other ≠ label →
  saved (snd (loadSnapshot label w)) other h0 c0.
Proof.
  intros [Hl Hc] [Hl0 Hc0] Hne. rewrite (loadSnapshot_known _ _ _ _ Hl Hc).
  split; simpl.
  - rewrite lookup_insert_ne by congruence. exact Hl0.
  - apply resolve_from_app_l. exact Hc0.
Qed.

(** C7: in a world whose store only holds handles that the node
    issued, two loads in a row of a label with a saved handle both
    resolve and leave the chain in the same state, so that every
    read-only query answers the same after the first load as after the
    second. *)
Theorem loadSnapshot_twice_same_state label h w :
  consistent w →
  snapshots w !! label = Some h →
  ∃ w1 w2,
    loadSnapshot label w = (Ok tt, w1)
    ∧ loadSnapshot label w1 = (Ok tt, w2)
    ∧ chain (node w1) = chain (node w2)
    ∧ ∀ (A : Type) (query : Chain Storage → A),
        view query w1 = (Ok (query (chain (node w1))), w1)
        ∧ view query w2 = (Ok (query (chain (node w2))), w2)
        ∧ fst (view query w1) = fst (view query w2).
Proof.
  intros Hw Hl. destruct (Hw _ _ Hl) as [c Hc].
  destruct (loadSnapshot_saved label h c w (conj Hl Hc))
    as (h1 & w1 & Hrun1 & Hchain1 & Hsaved1).
  destruct (loadSnapshot_saved label h1 c w1 Hsaved1)
    as (h2 & w2 & Hrun2 & Hchain2 & _).
  exists w1, w2. split; [exact Hrun1|]. split; [exact Hrun2|].
  split; [congruence|]. intros A query. unfold view. simpl.
  split; [reflexivity|]. split; [reflexivity|]. congruence.
Qed.

End Snapshots.

(** Letting an epoch pass keeps the store and the captured states. *)
Lemma consistent_elapseEpoch {Storage : Type}
  (getTimeRemainingInCurrentEpoch : Chain Storage → BigNumber)
  (EPOCH_LENGTH : BigNumber) mineBlock (w : World Storage) :
  consistent w →
  consistent
    (snd (elapseEpoch getTimeRemainingInCurrentEpoch EPOCH_LENGTH mineBlock w)).
Proof.
  intros Hw. rewrite elapseEpoch_unfold.
  destruct (toNumber _) as [remaining|]; [|exact Hw].
  destruct (if remaining =? 0 then toNumber EPOCH_LENGTH else Ok remaining);
    [|exact Hw].
  simpl. destruct (default true mineBlock); exact Hw.
Qed.

(** *** Instances on a chain without contracts *)

(** The store after one [saveSnapshot('AfterStack')]. *)
Lemma saved_once :
  snd (saveSnapshot "AfterStack" genesis)
  = {| snapshots := {[ "AfterStack" := "0x0" ]};
       node := {| chain := chain (node genesis);
                  captured := [chain (node genesis)] |} |}.
Proof. reflexivity. Qed.

Lemma saved_once_consistent :
  consistent (snd (saveSnapshot "AfterStack" genesis)).
Proof. apply consistent_saveSnapshot, consistent_genesis. Qed.

Lemma elapseEpoch_advances_by_witness :
  Z.abs ((λ _ : Chain unit, 0) (chain (node genesis))) <= MAX_SAFE_INTEGER
  ∧ ((λ _ : Chain unit, 0) (chain (node genesis)) = 0 →
     Z.abs four_weeks <= MAX_SAFE_INTEGER)
  ∧ ∃ w',
      elapseEpoch (λ _, 0) four_weeks None genesis = (Ok tt, w')
      ∧ clock (chain (node w')) = clock (chain (node genesis)) + four_weeks
      ∧ node w' = increaseTimeAndMine four_weeks (node genesis)
      ∧ snapshots w' = snapshots genesis.
Proof.
  split; [vm_compute; discriminate|].
  split; [intros _; vm_compute; discriminate|].
  apply (elapseEpoch_advances_by (λ _, 0) four_weeks None genesis).
  - vm_compute; discriminate.
  - intros _; vm_compute; discriminate.
Defined.

Lemma elapseEpoch_strictly_forward_witness :
  (0 <= (λ _ : Chain unit, 86400) (chain (node genesis)) <= MAX_SAFE_INTEGER)
  ∧ 0 < four_weeks
  ∧ ((λ _ : Chain unit, 86400) (chain (node genesis)) = 0 →
     four_weeks <= MAX_SAFE_INTEGER)
  ∧ ∃ w',
      elapseEpoch (λ _, 86400) four_weeks (Some false) genesis = (Ok tt, w')
      ∧ clock (chain (node genesis)) < clock (chain (node w'))
      ∧ 0 < elapsed (λ _, 86400) four_weeks (Some false) genesis.
Proof.
  split; [split; vm_compute; discriminate|].
  split; [reflexivity|].
  split; [intros _; vm_compute; discriminate|].
  apply (elapseEpoch_strictly_forward (λ _, 86400) four_weeks (Some false) genesis).
  - split; vm_compute; discriminate.
  - reflexivity.
  - intros _; vm_compute; discriminate.
Defined.

(** C1, as stated, fails: when the contract reports [2^53] seconds, the
    conversion to a number faults, the call rejects, and the clock has not
    moved at all, let alone by the reported remaining time. *)
Lemma elapseEpoch_not_advanced_by_report :
  let contract := λ _ : Chain unit, 2 ^ 53 in
  contract (chain (node genesis)) ≠ 0
  ∧ elapseEpoch contract four_weeks None genesis
    = (Throw (NumericFault "toNumber" (2 ^ 53)), genesis)
  ∧ elapsed contract four_weeks None genesis = 0
  ∧ elapsed contract four_weeks None genesis
    ≠ contract (chain (node genesis)).
Proof. vm_compute. repeat split; discriminate. Qed.

(** C10, as stated, fails: the reported remaining time [2^60] is
    non-negative and the epoch length 1 is positive, yet the call rejects
    and the clock has moved by zero. *)
Lemma elapseEpoch_not_strictly_forward :
  let contract := λ _ : Chain unit, 2 ^ 60 in
  0 <= contract (chain (node genesis))
  ∧ 0 < 1
  ∧ elapseEpoch contract 1 (Some true) genesis
    = (Throw (NumericFault "toNumber" (2 ^ 60)), genesis)
  ∧ ¬ 0 < elapsed contract 1 (Some true) genesis.
Proof. vm_compute. repeat split; discriminate. Qed.

Lemma loadSnapshot_unknown_label_witness :
  snapshots genesis !! "AfterStack" = None
  ∧ loadSnapshot "AfterStack" genesis
    = (Throw (Error "Cannot load since snapshot has not been saved: AfterStack"),
       genesis).
Proof.
  split; [reflexivity|].
  apply (loadSnapshot_unknown_label "AfterStack" genesis). reflexivity.
Defined.

Lemma loadSnapshot_restores_and_resaves_witness :
  let w := snd (saveSnapshot "AfterStack" genesis) in
  consistent w
  ∧ snapshots w !! "AfterStack" = Some "0x0"
  ∧ ∃ c h' w',
      resolve (node w) "0x0" = Some c
      ∧ loadSnapshot "AfterStack" w = (Ok tt, w')
      ∧ node w' = snd (evmSnapshot (snd (evmRevert "0x0" (node w))))
      ∧ chain (node w') = c
      ∧ snapshots w' = <["AfterStack" := h']> (snapshots w)
      ∧ resolve (node w) h' = None
      ∧ h' ≠ "0x0"
      ∧ resolve (node w') h' = Some (chain (node w')).
Proof.
  split; [exact saved_once_consistent|]. split; [reflexivity|].
  apply (loadSnapshot_restores_and_resaves "AfterStack" "0x0"
           (snd (saveSnapshot "AfterStack" genesis))).
  - exact saved_once_consistent.
  - reflexivity.
Defined.

Lemma loadSnapshot_twice_same_state_witness :
  let w := snd (saveSnapshot "AfterStack" genesis) in
  consistent w
  ∧ snapshots w !! "AfterStack" = Some "0x0"
  ∧ ∃ w1 w2,
      loadSnapshot "AfterStack" w = (Ok tt, w1)
      ∧ loadSnapshot "AfterStack" w1 = (Ok tt, w2)
      ∧ chain (node w1) = chain (node w2)
      ∧ ∀ (A : Type) (query : Chain unit → A),
          view query w1 = (Ok (query (chain (node w1))), w1)
          ∧ view query w2 = (Ok (query (chain (node w2))), w2)
          ∧ fst (view query w1) = fst (view query w2).
Proof.
  split; [exact saved_once_consistent|]. split; [reflexivity|].
  apply (loadSnapshot_twice_same_state "AfterStack" "0x0"
           (snd (saveSnapshot "AfterStack" genesis))).
  - exact saved_once_consistent.
  - reflexivity.
Defined.

End HarnessFacts.

(** ** The migration script *)

Module MigrationFacts.
Import JS Migration.

Section WithLibraries.

Context {TransactionResponse TransactionReceipt : Type}.
Variable abi_encode : list string → list jsval → string.
Variable encodeFunctionData : string → Proposal → string.
Variable deployConfig : DeployConfig.

Local Abbreviation call := (@call TransactionResponse TransactionReceipt).
Local Abbreviation entry := (@entry TransactionResponse TransactionReceipt).
Local Abbreviation handler := (@handler TransactionResponse TransactionReceipt).
Local Abbreviation proposal := (proposal abi_encode deployConfig).
Local Abbreviation partialTxRequest :=
  (partialTxRequest abi_encode encodeFunctionData deployConfig).
Local Abbreviation createGrantsProgramProposal :=
  (createGrantsProgramProposal abi_encode encodeFunctionData deployConfig).
Local Abbreviation answered_calls :=
  (answered_calls abi_encode encodeFunctionData deployConfig).

(** One step of a run: case analysis on what the world answers. *)
Ltac answer H :=
  match type of H with
  | context [match ?h ?T ?c ?s with _ => _ end] =>
      let r := fresh "r" in
      let s' := fresh "s" in
      let e := fresh "e" in
      destruct (h T c s) as [[r|e] s']; simpl in H; [|discriminate H]
  end.

(** C5: in every run of [createGrantsProgramProposal] that resolves, the
    calls made are, in this order: the resolution of the signer when none
    was passed, the log line, one read of the governor's proposal count,
    the population of the transaction, three console lines, the
    submission of the populated transaction and the wait for its
    confirmation, each of them answered; and the value returned is the
    count that the one read, made before the submission, answered. *)
Theorem createGrantsProgramProposal_returns_prior_count
  {S} (h : handler S) (a : Args) (s s' : S) (r : Returned) (tr : list entry) :
  run h (createGrantsProgramProposal a) s = (Ok r, s', tr) →
  ∃ resolved deployer count tx response receipt,
    resolution a resolved deployer
    ∧ tr = answered_calls a resolved deployer count tx response receipt
    ∧ proposalId r = count
    ∧ flat_map counts tr = [count]
    ∧ flat_map sent tr = [tx].
Proof.
  unfold Migration.createGrantsProgramProposal, resolution.
  destruct (signer a) as [given|]; simpl; intros H.
  - repeat answer H. injection H as <- <- <-.
    eexists [], given, _, _, _, _. repeat split.
    repeat match goal with u : unit |- _ => destruct u end.
    reflexivity.
  - repeat answer H. injection H as <- <- <-.
    eexists [_], _, _, _, _, _. repeat split.
    repeat match goal with u : unit |- _ => destruct u end.
    reflexivity.
Qed.

(** All the ways a run can go: case analysis on every answer. *)
Ltac answers :=
  repeat match goal with
    | |- context [match ?h ?T ?c ?s with _ => _ end] =>
        destruct (h T c s) as [[?|?] ?]; simpl
    end.

(** C6: the proposal that [createGrantsProgramProposal] constructs has
    the short timelock as executor, the community treasury as its only
    target, ['0'] as its only value, the transfer signature as its only
    signature, the ABI encoding of the token address, the configured
    multisig address and the configured funding amount as its only call
    data, [false] as its only delegate-call flag, and the given IPFS
    hash; and in every run, however the world answers, a transaction
    handed on for population is addressed to the governor and carries
    the encoding of [create] applied to this proposal. *)
Theorem proposal_is_one_treasury_transfer (a : Args) :
  proposal a
  = (shortTimelockAddress a,
     [communityTreasuryAddress a],
     ["0"],
     ["transfer(address,address,uint256)"],
     [abi_encode ["address"; "address"; "uint256"]
        [JString (dydxTokenAddress a);
         JString (DGP_MULTISIG_ADDRESS deployConfig);
         DGP_FUNDING_AMOUNT deployConfig]],
     [false],
     proposalIpfsHashHex a)
  ∧ ∀ S (h : handler S) (s : S),
      Forall
        (λ tx, to tx = Some (governorAddress a)
               ∧ data tx = Some (encodeFunctionData "create" (proposal a)))
        (flat_map populated (run h (createGrantsProgramProposal a) s).2).
Proof.
  split; [reflexivity|]. intros S h s.
  unfold Migration.createGrantsProgramProposal.
  destruct (signer a) as [given|]; simpl; answers;
    repeat constructor.
Qed.

(** A run that rejects stops at the call that was rejected, with its
    reason: nothing is retried and nothing is caught. *)
Lemma run_Throw {S A} (h : handler S) (m : Async A) (s s' : S) e tr :
  run h m s = (Throw e, s', tr) →
  ∃ tr' T (c : call T), tr = tr' ++ [Called c (Throw e)].
Proof.
  revert s tr. induction m as [a|T c k IH]; intros s tr; simpl.
  - discriminate.
  - destruct (h T c s) as [[t|e0] s1].
    + destruct (run h (k t) s1) as [[r s2] tr1] eqn:Hrun.
      intros [= -> <- <-].
      destruct (IH t s1 tr1 Hrun) as (tr' & T' & c' & ->).
      exists (Called c (Ok t) :: tr'), T', c'. reflexivity.
    + intros [= <- <- <-]. exists [], T, c. reflexivity.
Qed.

(** However the world answers, a run submits at most one transaction:
    nothing is sent twice. *)
Lemma createGrantsProgramProposal_sends_at_most_once
  {S} (h : handler S) (a : Args) (s : S) :
  (length (flat_map sent (run h (createGrantsProgramProposal a) s).2) <= 1)%nat.
Proof.
  unfold Migration.createGrantsProgramProposal.
  destruct (signer a) as [given|]; simpl; answers; simpl; lia.
Qed.

(** On the modelled network, with nothing else in flight, the routine
    resolves with the count from before, and its transaction has made
    the count one larger. *)
Lemma createGrantsProgramProposal_on_network (a : Args) (s : Network) :
  mempool s = [] →
  ∃ s' tr,
    run network
      (Migration.createGrantsProgramProposal
         abi_encode encodeFunctionData deployConfig a) s
    = (Ok {| proposalId := proposalsCount s |}, s', tr)
    ∧ proposalsCount s' = proposalsCount s + 1.
Proof.
  intros Hm. unfold Migration.createGrantsProgramProposal.
  destruct (signer a) as [given|]; simpl; rewrite Hm;
    eexists _, _; (split; [reflexivity|]); reflexivity.
Qed.

End WithLibraries.

Lemma createGrantsProgramProposal_returns_prior_count_witness :
  let out :=
    run network
      (createGrantsProgramProposal
         toy_abi_encode toy_encodeFunctionData grantsConfig grantsArgs)
      quiet in
  out = (Ok {| proposalId := 7 |}, out.1.2, out.2)
  ∧ ∃ resolved deployer count tx response receipt,
      resolution grantsArgs resolved deployer
      ∧ out.2
        = answered_calls toy_abi_encode toy_encodeFunctionData grantsConfig
            grantsArgs resolved deployer count tx response receipt
      ∧ 7 = count
      ∧ flat_map counts out.2 = [count]
      ∧ flat_map sent out.2 = [tx].
Proof.
  split; [reflexivity|].
  apply (createGrantsProgramProposal_returns_prior_count
           toy_abi_encode toy_encodeFunctionData grantsConfig
           network grantsArgs quiet
           (run network
             (createGrantsProgramProposal
                toy_abi_encode toy_encodeFunctionData grantsConfig grantsArgs)
             quiet).1.2
           {| proposalId := 7 |}).
  reflexivity.
Defined.

End MigrationFacts.

(** ** The safety module *)

Module SafetyModuleFacts.
Import JS Evm SafetyModule.

Implicit Types (c : Chain Storage) (a : Account) (s : Storage).

(** *** Epochs *)

Lemma remaining_bounds c :
  0 < interval (storage c) →
  0 < getTimeRemainingInCurrentEpoch c <= interval (storage c).
Proof.
  intros Hi. unfold getTimeRemainingInCurrentEpoch.
  pose proof (Z.mod_pos_bound (clock c - offset (storage c)) _ Hi). lia.
Qed.

(** Advancing by the remaining time lands in the next epoch. *)
Lemma div_next x i : 0 < i → (x + (i - x mod i)) / i = x / i + 1.
Proof.
  intros Hi. rewrite (Z.div_mod x i) at 1 by lia.
  replace (i * (x / i) + x mod i + (i - x mod i)) with ((x / i + 1) * i) by ring.
  apply Z.div_mul. lia.
Qed.

Lemma currentEpoch_advance c :
  0 < interval (storage c) →
  currentEpoch (advance (getTimeRemainingInCurrentEpoch c) c)
  = currentEpoch c + 1.
Proof.
  intros Hi. unfold currentEpoch, getTimeRemainingInCurrentEpoch. simpl.
  rewrite <- (div_next _ _ Hi). f_equal. ring.
Qed.

Lemma currentEpoch_mine c : currentEpoch (mine c) = currentEpoch c.
Proof. reflexivity. Qed.

(** *** Accounts *)

Lemma account_set_account who a delta s :
  account (set_account who a delta s) who = a.
Proof. unfold account, set_account. simpl. rewrite lookup_insert_eq. reflexivity. Qed.

Lemma requested_in_settle e a : (requested_in (settle e a) <? e) = false.
Proof.
  unfold settle. destruct (Z.ltb_spec (requested_in a) e); simpl.
  - apply Z.ltb_irrefl.
  - apply Z.ltb_ge. assumption.
Qed.

Lemma settle_same e a : requested_in a = e → settle e a = a.
Proof. intros <-. unfold settle. rewrite Z.ltb_irrefl. reflexivity. Qed.

Lemma settle_later e a :
  requested_in a < e →
  settle e a
  = {| balance := balance a; active := active a; pending := 0;
       requested_in := e; withdrawable := withdrawable a + pending a |}.
Proof.
  intros H. unfold settle. destruct (Z.ltb_spec (requested_in a) e); [reflexivity | lia].
Qed.

(** What the queries see when nothing is pending and nothing is
    available does not depend on the epoch. *)
Lemma settle_idle e a :
  pending a = 0 → withdrawable a = 0 →
  balance (settle e a) = balance a ∧ active (settle e a) = active a
  ∧ pending (settle e a) = 0 ∧ withdrawable (settle e a) = 0.
Proof.
  intros Hp Hw. unfold settle. destruct (requested_in a <? e); simpl; lia.
Qed.

(** *** Transactions *)

Lemma execute_Stake who amount c :
  0 < amount <= balance (settled c who) →
  execute who (Stake amount) c
  = Ok (with_storage
          (set_account who
             {| balance := balance (settled c who) - amount;
                active := active (settled c who) + amount;
                pending := pending (settled c who);
                requested_in := requested_in (settled c who);
                withdrawable := withdrawable (settled c who) |}
             amount (storage c)) c).
Proof.
  intros [H1 H2]. unfold execute.
  apply Z.ltb_lt in H1. apply Z.leb_le in H2. rewrite H1, H2. reflexivity.
Qed.

Lemma execute_RequestWithdrawal who amount c :
  0 < amount <= active (settled c who) →
  blackoutWindow (storage c) < getTimeRemainingInCurrentEpoch c →
  execute who (RequestWithdrawal amount) c
  = Ok (with_storage
          (set_account who
             {| balance := balance (settled c who);
                active := active (settled c who) - amount;
                pending := pending (settled c who) + amount;
                requested_in := currentEpoch c;
                withdrawable := withdrawable (settled c who) |}
             (- amount) (storage c)) c).
Proof.
  intros [H1 H2] H3. unfold execute.
  apply Z.ltb_lt in H1, H3. apply Z.leb_le in H2. rewrite H1, H2, H3.
  reflexivity.
Qed.

Lemma execute_WithdrawStake who amount c :
  0 <= amount <= withdrawable (settled c who) →
  execute who (WithdrawStake amount) c
  = Ok (with_storage
          (set_account who
             {| balance := balance (settled c who) + amount;
                active := active (settled c who);
                pending := pending (settled c who);
                requested_in := requested_in (settled c who);
                withdrawable := withdrawable (settled c who) - amount |}
             0 (storage c)) c).
Proof.
  intros [H1 H2]. unfold execute.
  apply Z.leb_le in H1, H2. rewrite H1, H2. reflexivity.
Qed.

(** The account as the queries see it right after a transaction wrote
    it. *)
Lemma settled_written who a delta c :
  (requested_in a <? currentEpoch c) = false →
  settled (with_storage (set_account who a delta (storage c)) c) who = a.
Proof.
  intros H. unfold settled.
  change (currentEpoch (with_storage _ c)) with (currentEpoch c).
  simpl. rewrite account_set_account. unfold settle. rewrite H. reflexivity.
Qed.

(** The account as the queries see it one epoch after it was written with
    a request of the epoch before. *)
Lemma settled_next_epoch who a delta c mined :
  0 < interval (storage c) →
  requested_in a = currentEpoch c →
  let c' := with_storage (set_account who a delta (storage c)) c in
  let later := advance (getTimeRemainingInCurrentEpoch c') c' in
  settled (if mined : bool then mine later else later) who
  = {| balance := balance a; active := active a; pending := 0;
       requested_in := currentEpoch c + 1;
       withdrawable := withdrawable a + pending a |}.
Proof.
  intros Hi Hr c' later. unfold settled.
  assert (He : currentEpoch (if mined then mine later else later)
               = currentEpoch c + 1).
  { destruct mined; [rewrite currentEpoch_mine|];
      exact (currentEpoch_advance c' Hi). }
  rewrite He.
  assert (Ha : account (storage (if mined then mine later else later)) who = a).
  { destruct mined; simpl; apply account_set_account. }
  rewrite Ha. apply settle_later. lia.
Qed.

End SafetyModuleFacts.

(** ** The test cases *)

Module SuiteFacts.
Import JS Evm Harness SafetyModule Suite.
Import JSFacts EvmFacts HarnessFacts SafetyModuleFacts.

(** *** Decimal numerals *)

Lemma pow10_positive d : 0 <= d → 0 < 10 ^ d.
Proof. intros Hd. apply Z.pow_pos_nonneg; lia. Qed.

(** An amount of whole tokens, written in the token's smallest unit and
    formatted at the token's decimals, reads as the amount. *)
Lemma formatUnits_scaled n d :
  0 <= d → formatUnits (n * 10 ^ d) d = formatUnits n 0.
Proof.
  intros Hd. unfold formatUnits. apply Q2Qc_eq_iff. unfold Qeq. simpl.
  rewrite Z2Pos.id by (apply pow10_positive; exact Hd). ring.
Qed.

(** At the same decimals, different amounts read differently. *)
Lemma formatUnits_inj v v' d : formatUnits v d = formatUnits v' d → v = v'.
Proof.
  unfold formatUnits. intros H. apply Q2Qc_eq_iff in H. unfold Qeq in H.
  simpl in H. apply Z.mul_cancel_r in H; [exact H | discriminate].
Qed.

Section WithConstants.

Variable EPOCH_LENGTH : BigNumber.
Variable DYDX_TOKEN_DECIMALS : Z.
Variable staker1 : string.

Implicit Types (w : World Storage) (c : Chain Storage).

Local Abbreviation parse := (parseNumberToEthersBigNumber DYDX_TOKEN_DECIMALS).
Local Abbreviation elapseEpoch := (Suite.elapseEpoch EPOCH_LENGTH).
Local Abbreviation staked := (staked DYDX_TOKEN_DECIMALS staker1).
Local Abbreviation minted := (minted staker1).
Local Abbreviation after_request :=
  (after_request DYDX_TOKEN_DECIMALS staker1).

(** *** Steps of a test case *)

Lemma bind_Ok {A B} (m : T A) (k : A → T B) w a w1 :
  m w = (Ok a, w1) → bind m k w = k a w1.
Proof. intros H. unfold bind. rewrite H. reflexivity. Qed.

Lemma sendTransactions_one t who w c' :
  execute who t (chain (node w)) = Ok c' →
  sendTransactions [t] who w = (Ok tt, with_chain c' w).
Proof.
  intros H. unfold sendTransactions, bind, send. rewrite H. reflexivity.
Qed.

(** A transaction that reverts rejects the call and leaves the world as it
    was. *)
Lemma sendTransactions_reverted t txs who w e :
  execute who t (chain (node w)) = Throw e →
  sendTransactions (t :: txs) who w = (Throw e, w).
Proof.
  intros H. simpl. unfold bind, send. rewrite H. reflexivity.
Qed.

Lemma expect_equal_same (x y : tStringDecimalUnits) w :
  x = y → expect_equal x y w = (Ok tt, w).
Proof.
  intros <-. unfold expect_equal.
  assert (H : Qeq_bool x x = true) by (apply Qeq_bool_iff; reflexivity).
  rewrite H. reflexivity.
Qed.

(** An assertion only passes on equal numerals. *)
Lemma expect_equal_Ok (x y : tStringDecimalUnits) w w' :
  expect_equal x y w = (Ok tt, w') → x = y.
Proof.
  unfold expect_equal. destruct (Qeq_bool x y) eqn:E; [|discriminate].
  intros _. apply Qc_is_canon, Qeq_bool_iff. exact E.
Qed.

(** With the modelled contract, [elapseEpoch()] moves the clock by the
    remaining time of the epoch and mines a block. *)
Lemma elapseEpoch_next w :
  0 < interval (storage (chain (node w))) <= MAX_SAFE_INTEGER →
  elapseEpoch None w
  = (Ok tt,
     with_chain
       (mine (advance
                (SafetyModule.getTimeRemainingInCurrentEpoch (chain (node w)))
                (chain (node w)))) w).
Proof.
  intros [Hi Hm]. unfold Suite.elapseEpoch.
  pose proof (remaining_bounds (chain (node w)) Hi) as Hr.
  rewrite elapseEpoch_unfold, toNumber_safe by lia.
  destruct (Z.eqb_spec
              (SafetyModule.getTimeRemainingInCurrentEpoch (chain (node w))) 0);
    [lia | reflexivity].
Qed.

Lemma view_bind {A B} (q : Chain Storage → A) (k : A → T B) w :
  bind (view q) k w = k (q (chain (node w))) w.
Proof. reflexivity. Qed.

Lemma chain_with_chain c w : chain (node (with_chain c w)) = c.
Proof. reflexivity. Qed.

Lemma with_chain_twice c c' w : with_chain c' (with_chain c w) = with_chain c' w.
Proof. reflexivity. Qed.

Lemma saved_with_chain w label h c c' :
  saved w label h c → saved (with_chain c' w) label h c.
Proof. intros H. exact H. Qed.

(** *** Amounts *)

Lemma parse_positive n : 0 <= DYDX_TOKEN_DECIMALS → 0 < n → 0 < parse n.
Proof.
  intros Hd Hn. unfold parseNumberToEthersBigNumber.
  pose proof (pow10_positive _ Hd). lia.
Qed.

Lemma parse_stakeAmount_le :
  0 <= DYDX_TOKEN_DECIMALS <= 18 → parse stakeAmount <= stakerInitialBalanceWei.
Proof.
  intros Hd. unfold parseNumberToEthersBigNumber, stakeAmount,
    stakerInitialBalanceWei.
  pose proof (Z.pow_le_mono_r 10 DYDX_TOKEN_DECIMALS 18).
  change (10 ^ 24) with (1000000 * 10 ^ 18). lia.
Qed.

Lemma parse_half :
  parse (stakeAmount / 2) + parse (stakeAmount / 2) = parse stakeAmount.
Proof.
  unfold parseNumberToEthersBigNumber.
  change (stakeAmount / 2) with 500000. change stakeAmount with 1000000.
  ring.
Qed.

Lemma formatUnits_parse n :
  0 <= DYDX_TOKEN_DECIMALS →
  formatUnits (parse n) DYDX_TOKEN_DECIMALS = formatUnits n 0.
Proof. apply formatUnits_scaled. Qed.

(** *** The hooks *)

Lemma staked_after_Stake c :
  0 <= DYDX_TOKEN_DECIMALS <= 18 →
  minted c →
  ∃ c', execute staker1 (Stake (parse stakeAmount)) c = Ok c' ∧ staked c'.
Proof.
  intros Hd (Hi & Hb & Ht & Hbal & Hact & Hpen & Hwd).
  pose proof (parse_positive stakeAmount (proj1 Hd) eq_refl) as Hpos.
  pose proof (parse_stakeAmount_le Hd) as Hle.
  eexists. split.
  { apply execute_Stake. rewrite Hbal. lia. }
  unfold Suite.staked.
  rewrite settled_written by apply requested_in_settle. simpl.
  rewrite Ht, Hbal, Hact, Hpen, Hwd.
  repeat split; try reflexivity; try lia. exact Hb.
Qed.

Lemma before_after_staking_spec w h0 c0 :
  0 <= DYDX_TOKEN_DECIMALS <= 18 →
  saved w afterMockTokenMint h0 c0 →
  minted c0 →
  ∃ h1 c1 w1,
    before_after_staking DYDX_TOKEN_DECIMALS staker1 w = (Ok tt, w1)
    ∧ saved w1 afterStake h1 c1
    ∧ staked c1.
Proof.
  intros Hd [Hl Hc] Hm.
  destruct (staked_after_Stake c0 Hd Hm) as (c1 & Hx & Hs).
  unfold before_after_staking.
  rewrite (bind_Ok _ _ _ _ _ (loadSnapshot_known _ _ _ _ Hl Hc)).
  unfold stake.
  rewrite (bind_Ok _ _ _ tt _
             (sendTransactions_one _ _
                {| snapshots := _; node := {| chain := c0; captured := _ |} |}
                _ Hx)).
  rewrite saveSnapshot_unfold.
  eexists _, c1, _. split; [reflexivity|]. split; [|exact Hs].
  split; simpl; [apply lookup_insert_eq | apply (resolve_from_snoc 0)].
Qed.

Lemma beforeEach_after_staking_spec w h c :
  saved w afterStake h c →
  ∃ h' w',
    beforeEach_after_staking w = (Ok tt, w')
    ∧ chain (node w') = c
    ∧ saved w' afterStake h' c.
Proof. apply loadSnapshot_saved. Qed.

(** *** The cases *)

Lemma getTotalStake_staked c :
  0 <= DYDX_TOKEN_DECIMALS →
  staked c →
  getTotalStake DYDX_TOKEN_DECIMALS c = formatUnits stakeAmount 0.
Proof.
  intros Hd (_ & _ & Ht & _). unfold getTotalStake. rewrite Ht.
  apply formatUnits_parse, Hd.
Qed.

Lemma it_total_liquidity_passes w :
  0 <= DYDX_TOKEN_DECIMALS →
  staked (chain (node w)) →
  it_total_liquidity DYDX_TOKEN_DECIMALS w = (Ok tt, w).
Proof.
  intros Hd Hs. unfold it_total_liquidity. rewrite view_bind.
  apply expect_equal_same, getTotalStake_staked; assumption.
Qed.

(** The chain after [staker1] has requested the withdrawal of [amount]
    out of the stake. *)
Lemma requested c amount :
  staked c →
  0 < amount <= parse stakeAmount →
  execute staker1 (RequestWithdrawal amount) c = Ok (after_request amount c).
Proof.
  intros (Hi & Hb & Ht & Hbal & Hact & Hpen & Hwd) Ha.
  rewrite execute_RequestWithdrawal by (rewrite ?Hact; lia || exact Hb).
  rewrite Hbal, Hact, Hpen, Hwd. reflexivity.
Qed.

Lemma settled_after_request c amount :
  settled (after_request amount c) staker1
  = {| balance := stakerInitialBalanceWei - parse stakeAmount;
       active := parse stakeAmount - amount;
       pending := amount;
       requested_in := currentEpoch c;
       withdrawable := 0 |}.
Proof. apply settled_written, Z.ltb_irrefl. Qed.

Lemma settled_after_epoch c amount :
  0 < interval (storage c) →
  settled (after_epoch (after_request amount c)) staker1
  = {| balance := stakerInitialBalanceWei - parse stakeAmount;
       active := parse stakeAmount - amount;
       pending := 0;
       requested_in := currentEpoch c + 1;
       withdrawable := amount |}.
Proof.
  intros Hi.
  exact (settled_next_epoch staker1
           {| balance := stakerInitialBalanceWei - parse stakeAmount;
              active := parse stakeAmount - amount;
              pending := amount;
              requested_in := currentEpoch c;
              withdrawable := 0 |}
           (- amount) c true Hi eq_refl).
Qed.

Lemma pending_after_request c :
  0 <= DYDX_TOKEN_DECIMALS →
  getUserStakePendingWithdraw DYDX_TOKEN_DECIMALS staker1
    (after_request (parse stakeAmount) c)
  = formatUnits stakeAmount 0.
Proof.
  intros Hd. unfold getUserStakePendingWithdraw.
  rewrite settled_after_request. apply formatUnits_parse, Hd.
Qed.

Lemma available_after_epoch c :
  0 <= DYDX_TOKEN_DECIMALS →
  0 < interval (storage c) →
  getUserStakeAvailableToWithdraw DYDX_TOKEN_DECIMALS staker1
    (after_epoch (after_request (parse stakeAmount) c))
  = formatUnits stakeAmount 0.
Proof.
  intros Hd Hi. unfold getUserStakeAvailableToWithdraw.
  rewrite settled_after_epoch by exact Hi. apply formatUnits_parse, Hd.
Qed.

(** Request, then let the epoch pass. *)
Lemma request_and_wait w amount :
  staked (chain (node w)) →
  0 < amount <= parse stakeAmount →
  ∀ {B} (k : T B),
    bind (sendTransactions [RequestWithdrawal amount] staker1)
      (λ _, bind (elapseEpoch None) (λ _, k)) w
    = k (with_chain (after_epoch (after_request amount (chain (node w)))) w).
Proof.
  intros Hs Ha B k.
  rewrite (bind_Ok _ _ _ tt _
             (sendTransactions_one _ _ _ _ (requested _ _ Hs Ha))).
  destruct Hs as (Hi & _).
  rewrite (bind_Ok _ _ _ tt _
             (elapseEpoch_next
                (with_chain (after_request amount (chain (node w))) w) Hi)).
  reflexivity.
Qed.

Lemma it_pending_withdraw_passes w :
  0 <= DYDX_TOKEN_DECIMALS →
  staked (chain (node w)) →
  it_pending_withdraw DYDX_TOKEN_DECIMALS staker1 w
  = (Ok tt, with_chain (after_request (parse stakeAmount) (chain (node w))) w).
Proof.
  intros Hd Hs.
  pose proof (parse_positive stakeAmount Hd eq_refl) as Hpos.
  unfold it_pending_withdraw, requestWithdrawal.
  rewrite (bind_Ok _ _ _ tt _
             (sendTransactions_one _ _ _ _
                (requested _ (parse stakeAmount) Hs ltac:(lia)))).
  rewrite view_bind, chain_with_chain.
  apply expect_equal_same, pending_after_request, Hd.
Qed.

Lemma it_available_to_withdraw_passes w :
  0 <= DYDX_TOKEN_DECIMALS →
  staked (chain (node w)) →
  it_available_to_withdraw EPOCH_LENGTH DYDX_TOKEN_DECIMALS staker1 w
  = (Ok tt,
     with_chain
       (after_epoch (after_request (parse stakeAmount) (chain (node w)))) w).
Proof.
  intros Hd Hs.
  pose proof (parse_positive stakeAmount Hd eq_refl) as Hpos.
  unfold it_available_to_withdraw, requestWithdrawal.
  rewrite (request_and_wait w (parse stakeAmount) Hs ltac:(lia)).
  rewrite view_bind, chain_with_chain.
  apply expect_equal_same, available_after_epoch; [exact Hd | apply Hs].
Qed.

Lemma it_withdraws_passes w :
  0 <= DYDX_TOKEN_DECIMALS →
  staked (chain (node w)) →
  ∃ c', it_withdraws EPOCH_LENGTH DYDX_TOKEN_DECIMALS staker1 w
        = (Ok tt, with_chain c' w)
        ∧ balance (settled c' staker1) = stakerInitialBalanceWei
        ∧ active (settled c' staker1) = 0
        ∧ withdrawable (settled c' staker1) = 0.
Proof.
  intros Hd Hs.
  pose proof (parse_positive stakeAmount Hd eq_refl) as Hpos.
  unfold it_withdraws, requestWithdrawal.
  rewrite (request_and_wait w (parse stakeAmount) Hs ltac:(lia)).
  change (withdrawStake DYDX_TOKEN_DECIMALS stakeAmount)
    with [WithdrawStake (parse stakeAmount)].
  set (c3 := after_epoch _).
  assert (H3 : settled c3 staker1
               = {| balance := stakerInitialBalanceWei - parse stakeAmount;
                    active := parse stakeAmount - parse stakeAmount;
                    pending := 0;
                    requested_in := currentEpoch (chain (node w)) + 1;
                    withdrawable := parse stakeAmount |})
    by (apply settled_after_epoch, Hs).
  pose (c4 :=
          with_storage
            (set_account staker1
               {| balance := balance (settled c3 staker1) + parse stakeAmount;
                  active := active (settled c3 staker1);
                  pending := pending (settled c3 staker1);
                  requested_in := requested_in (settled c3 staker1);
                  withdrawable :=
                    withdrawable (settled c3 staker1) - parse stakeAmount |}
               0 (storage c3)) c3).
  assert (Hx : execute staker1 (WithdrawStake (parse stakeAmount))
                 (chain (node (with_chain c3 w))) = Ok c4).
  { rewrite chain_with_chain. apply execute_WithdrawStake.
    rewrite H3. simpl. lia. }
  rewrite (bind_Ok _ _ _ tt _ (sendTransactions_one _ _ _ _ Hx)).
  rewrite view_bind, chain_with_chain, with_chain_twice.
  assert (H4 : settled c4 staker1
               = {| balance := stakerInitialBalanceWei - parse stakeAmount
                               + parse stakeAmount;
                    active := parse stakeAmount - parse stakeAmount;
                    pending := 0;
                    requested_in := currentEpoch (chain (node w)) + 1;
                    withdrawable := parse stakeAmount - parse stakeAmount |}).
  { unfold c4. rewrite settled_written by apply requested_in_settle.
    rewrite H3. reflexivity. }
  assert (Hbal : balance (settled c4 staker1) = stakerInitialBalanceWei)
    by (rewrite H4; simpl; lia).
  exists c4. split.
  { apply expect_equal_same. unfold getUserBalanceOfStakedToken.
    rewrite Hbal. reflexivity. }
  split; [exact Hbal|]. rewrite H4. simpl. lia.
Qed.

Lemma it_withdraws_max_passes w :
  0 <= DYDX_TOKEN_DECIMALS →
  staked (chain (node w)) →
  ∃ c', it_withdraws_max EPOCH_LENGTH DYDX_TOKEN_DECIMALS staker1 w
        = (Ok tt, with_chain c' w)
        ∧ balance (settled c' staker1)
          = stakerInitialBalanceWei - parse (stakeAmount / 2)
        ∧ active (settled c' staker1) = parse (stakeAmount / 2)
        ∧ withdrawable (settled c' staker1) = 0.
Proof.
  intros Hd Hs.
  pose proof (parse_positive (stakeAmount / 2) Hd eq_refl) as Hpos.
  pose proof parse_half as Hhalf.
  unfold it_withdraws_max, requestWithdrawal.
  rewrite (request_and_wait w (parse (stakeAmount / 2)) Hs ltac:(lia)).
  change (withdrawStake DYDX_TOKEN_DECIMALS (-1)) with [WithdrawMaxStake].
  set (c3 := after_epoch _).
  assert (H3 : settled c3 staker1
               = {| balance := stakerInitialBalanceWei - parse stakeAmount;
                    active := parse stakeAmount - parse (stakeAmount / 2);
                    pending := 0;
                    requested_in := currentEpoch (chain (node w)) + 1;
                    withdrawable := parse (stakeAmount / 2) |})
    by (apply settled_after_epoch, Hs).
  pose (c4 :=
          with_storage
            (set_account staker1
               {| balance := balance (settled c3 staker1)
                             + withdrawable (settled c3 staker1);
                  active := active (settled c3 staker1);
                  pending := pending (settled c3 staker1);
                  requested_in := requested_in (settled c3 staker1);
                  withdrawable := 0 |}
               0 (storage c3)) c3).
  assert (Hx : execute staker1 WithdrawMaxStake
                 (chain (node (with_chain c3 w))) = Ok c4) by reflexivity.
  rewrite (bind_Ok _ _ _ tt _ (sendTransactions_one _ _ _ _ Hx)).
  rewrite view_bind, chain_with_chain, with_chain_twice.
  assert (H4 : settled c4 staker1
               = {| balance := stakerInitialBalanceWei - parse stakeAmount
                               + parse (stakeAmount / 2);
                    active := parse stakeAmount - parse (stakeAmount / 2);
                    pending := 0;
                    requested_in := currentEpoch (chain (node w)) + 1;
                    withdrawable := 0 |}).
  { unfold c4.
    rewrite settled_written by apply requested_in_settle.
    rewrite H3. reflexivity. }
  assert (Hbal : balance (settled c4 staker1)
                 = stakerInitialBalanceWei - parse (stakeAmount / 2))
    by (rewrite H4; simpl; lia).
  exists c4. split.
  { apply expect_equal_same. unfold getUserBalanceOfStakedToken.
    rewrite Hbal. reflexivity. }
  split; [exact Hbal|]. rewrite H4. simpl. split; [lia | reflexivity].
Qed.

(** *** The scenarios *)

(** C8: on a chain where [staker1] holds [10^24] units and nothing is
    staked, with a token of at most 18 decimals, the [before] hook stakes
    [10^6] tokens and the four cases that follow, each after the
    [beforeEach] hook, pass: on the chain saved after the stake the total
    stake reads [10^6]; right after the request to withdraw all of it the
    pending withdrawal reads [10^6]; after the rest of the epoch the amount
    available to withdraw reads [10^6]; and after the withdrawal of that
    amount the free balance is [10^24] units again. *)
Theorem stake_request_wait_withdraw_restores_balance w h0 c0 :
  0 <= DYDX_TOKEN_DECIMALS <= 18 →
  saved w afterMockTokenMint h0 c0 →
  minted c0 →
  ∃ h1 c1 c2 w',
    withdrawal_cases EPOCH_LENGTH DYDX_TOKEN_DECIMALS staker1 w = (Ok tt, w')
    ∧ saved w' afterStake h1 c1
    ∧ getTotalStake DYDX_TOKEN_DECIMALS c1 = formatUnits (10 ^ 6) 0
    ∧ execute staker1 (RequestWithdrawal (10 ^ 6 * 10 ^ DYDX_TOKEN_DECIMALS)) c1
      = Ok c2
    ∧ getUserStakePendingWithdraw DYDX_TOKEN_DECIMALS staker1 c2
      = formatUnits (10 ^ 6) 0
    ∧ getUserStakeAvailableToWithdraw DYDX_TOKEN_DECIMALS staker1
        (mine (advance (SafetyModule.getTimeRemainingInCurrentEpoch c2) c2))
      = formatUnits (10 ^ 6) 0
    ∧ getUserBalanceOfStakedToken DYDX_TOKEN_DECIMALS staker1 (chain (node w'))
      = formatUnits (10 ^ 24) DYDX_TOKEN_DECIMALS
    ∧ balance (settled (chain (node w')) staker1) = 10 ^ 24.
Proof.
  intros Hd Hsaved Hm. pose proof (proj1 Hd) as Hd0.
  pose proof (parse_positive stakeAmount Hd0 eq_refl) as Hpos.
  destruct (before_after_staking_spec w h0 c0 Hd Hsaved Hm)
    as (h1 & c1 & w1 & Hrun1 & Hs1 & Hstaked).
  destruct (beforeEach_after_staking_spec w1 h1 c1 Hs1)
    as (h2 & w2 & Hrun2 & Hc2 & Hs2).
  assert (Hst2 : staked (chain (node w2))) by (rewrite Hc2; exact Hstaked).
  pose proof (it_total_liquidity_passes w2 Hd0 Hst2) as Hrun3.
  destruct (beforeEach_after_staking_spec w2 h2 c1 Hs2)
    as (h3 & w3 & Hrun4 & Hc3 & Hs3).
  assert (Hst3 : staked (chain (node w3))) by (rewrite Hc3; exact Hstaked).
  pose proof (it_pending_withdraw_passes w3 Hd0 Hst3) as Hrun5.
  destruct (beforeEach_after_staking_spec _ h3 c1
              (saved_with_chain _ _ _ _
                 (after_request (parse stakeAmount) (chain (node w3))) Hs3))
    as (h4 & w4 & Hrun6 & Hc4 & Hs4).
  assert (Hst4 : staked (chain (node w4))) by (rewrite Hc4; exact Hstaked).
  pose proof (it_available_to_withdraw_passes w4 Hd0 Hst4) as Hrun7.
  destruct (beforeEach_after_staking_spec _ h4 c1
              (saved_with_chain _ _ _ _
                 (after_epoch
                    (after_request (parse stakeAmount) (chain (node w4)))) Hs4))
    as (h5 & w5 & Hrun8 & Hc5 & Hs5).
  assert (Hst5 : staked (chain (node w5))) by (rewrite Hc5; exact Hstaked).
  destruct (it_withdraws_passes w5 Hd0 Hst5) as (c7 & Hrun9 & Hbal & _).
  exists h5, c1, (after_request (parse stakeAmount) c1), (with_chain c7 w5).
  split.
  { unfold withdrawal_cases.
    rewrite (bind_Ok _ _ _ _ _ Hrun1), (bind_Ok _ _ _ _ _ Hrun2),
      (bind_Ok _ _ _ _ _ Hrun3), (bind_Ok _ _ _ _ _ Hrun4),
      (bind_Ok _ _ _ _ _ Hrun5), (bind_Ok _ _ _ _ _ Hrun6),
      (bind_Ok _ _ _ _ _ Hrun7), (bind_Ok _ _ _ _ _ Hrun8).
    exact Hrun9. }
  split; [exact (saved_with_chain _ _ _ _ c7 Hs5)|].
  change (10 ^ 6 * 10 ^ DYDX_TOKEN_DECIMALS) with (parse stakeAmount).
  change (10 ^ 6) with stakeAmount.
  split; [apply getTotalStake_staked; assumption|].
  split; [apply requested; [exact Hstaked | lia]|].
  split; [apply pending_after_request, Hd0|].
  split; [apply available_after_epoch; [exact Hd0 | apply Hstaked]|].
  rewrite chain_with_chain. unfold getUserBalanceOfStakedToken.
  rewrite Hbal. split; reflexivity.
Qed.

(** C9: in the same setting, after the stake of [10^6] tokens, the case
    that requests the withdrawal of half of it, lets the epoch pass and
    withdraws with the sentinel [-1] passes: the free balance is the
    initial [10^24] units less [5 * 10^5] tokens in the token's smallest
    unit, and the stake that is left is that same half. *)
Theorem request_half_withdraw_max_leaves_half w h0 c0 :
  0 <= DYDX_TOKEN_DECIMALS <= 18 →
  saved w afterMockTokenMint h0 c0 →
  minted c0 →
  ∃ w',
    withdraw_max_case EPOCH_LENGTH DYDX_TOKEN_DECIMALS staker1 w = (Ok tt, w')
    ∧ getUserBalanceOfStakedToken DYDX_TOKEN_DECIMALS staker1 (chain (node w'))
      = formatUnits (10 ^ 24 - 5 * 10 ^ 5 * 10 ^ DYDX_TOKEN_DECIMALS)
          DYDX_TOKEN_DECIMALS
    ∧ balance (settled (chain (node w')) staker1)
      = 10 ^ 24 - 5 * 10 ^ 5 * 10 ^ DYDX_TOKEN_DECIMALS
    ∧ active (settled (chain (node w')) staker1)
      = 5 * 10 ^ 5 * 10 ^ DYDX_TOKEN_DECIMALS
    ∧ withdrawable (settled (chain (node w')) staker1) = 0.
Proof.
  intros Hd Hsaved Hm. pose proof (proj1 Hd) as Hd0.
  destruct (before_after_staking_spec w h0 c0 Hd Hsaved Hm)
    as (h1 & c1 & w1 & Hrun1 & Hs1 & Hstaked).
  destruct (beforeEach_after_staking_spec w1 h1 c1 Hs1)
    as (h2 & w2 & Hrun2 & Hc2 & Hs2).
  assert (Hst2 : staked (chain (node w2))) by (rewrite Hc2; exact Hstaked).
  destruct (it_withdraws_max_passes w2 Hd0 Hst2)
    as (c3 & Hrun3 & Hbal & Hstake & Hav).
  exists (with_chain c3 w2). split.
  { unfold withdraw_max_case.
    rewrite (bind_Ok _ _ _ _ _ Hrun1), (bind_Ok _ _ _ _ _ Hrun2).
    exact Hrun3. }
  rewrite chain_with_chain. unfold getUserBalanceOfStakedToken.
  change (5 * 10 ^ 5 * 10 ^ DYDX_TOKEN_DECIMALS) with (parse (stakeAmount / 2)).
  change (10 ^ 24) with stakerInitialBalanceWei.
  rewrite Hbal. auto.
Qed.

End WithConstants.

(** *** An instance with 18 decimals *)

Lemma funded_saved :
  saved funded afterMockTokenMint "0x0" (chain (node funded)).
Proof. split; reflexivity. Qed.

Lemma funded_minted : minted "0xstaker1" (chain (node funded)).
Proof. unfold minted. vm_compute. repeat split; congruence. Qed.

Lemma stake_request_wait_withdraw_restores_balance_witness :
  (0 <= 18 <= 18)
  ∧ saved funded afterMockTokenMint "0x0" (chain (node funded))
  ∧ minted "0xstaker1" (chain (node funded))
  ∧ ∃ h1 c1 c2 w',
      withdrawal_cases four_weeks 18 "0xstaker1" funded = (Ok tt, w')
      ∧ saved w' afterStake h1 c1
      ∧ getTotalStake 18 c1 = formatUnits (10 ^ 6) 0
      ∧ execute "0xstaker1" (RequestWithdrawal (10 ^ 6 * 10 ^ 18)) c1 = Ok c2
      ∧ getUserStakePendingWithdraw 18 "0xstaker1" c2 = formatUnits (10 ^ 6) 0
      ∧ getUserStakeAvailableToWithdraw 18 "0xstaker1"
          (mine (advance (SafetyModule.getTimeRemainingInCurrentEpoch c2) c2))
        = formatUnits (10 ^ 6) 0
      ∧ getUserBalanceOfStakedToken 18 "0xstaker1" (chain (node w'))
        = formatUnits (10 ^ 24) 18
      ∧ balance (settled (chain (node w')) "0xstaker1") = 10 ^ 24.
Proof.
  split; [lia|]. split; [exact funded_saved|]. split; [exact funded_minted|].
  apply (stake_request_wait_withdraw_restores_balance
           four_weeks 18 "0xstaker1" funded "0x0" (chain (node funded))).
  - lia.
  - exact funded_saved.
  - exact funded_minted.
Defined.

Lemma request_half_withdraw_max_leaves_half_witness :
  (0 <= 18 <= 18)
  ∧ saved funded afterMockTokenMint "0x0" (chain (node funded))
  ∧ minted "0xstaker1" (chain (node funded))
  ∧ ∃ w',
      withdraw_max_case four_weeks 18 "0xstaker1" funded = (Ok tt, w')
      ∧ getUserBalanceOfStakedToken 18 "0xstaker1" (chain (node w'))
        = formatUnits (10 ^ 24 - 5 * 10 ^ 5 * 10 ^ 18) 18
      ∧ balance (settled (chain (node w')) "0xstaker1")
        = 10 ^ 24 - 5 * 10 ^ 5 * 10 ^ 18
      ∧ active (settled (chain (node w')) "0xstaker1") = 5 * 10 ^ 5 * 10 ^ 18
      ∧ withdrawable (settled (chain (node w')) "0xstaker1") = 0.
Proof.
  split; [lia|]. split; [exact funded_saved|]. split; [exact funded_minted|].
  apply (request_half_withdraw_max_leaves_half
           four_weeks 18 "0xstaker1" funded "0x0" (chain (node funded))).
  - lia.
  - exact funded_saved.
  - exact funded_minted.
Defined.

(** The cases pass on this chain; by evaluation. *)
Example withdrawal_cases_funded :
  fst (withdrawal_cases four_weeks 18 "0xstaker1" funded) = Ok tt.
Proof. vm_compute. reflexivity. Qed.

Example withdraw_max_case_funded :
  fst (withdraw_max_case four_weeks 18 "0xstaker1" funded) = Ok tt.
Proof. vm_compute. reflexivity. Qed.

(** With two decimals fewer than the balance allows, the stake is a
    hundredth of the balance, and the cases pass all the same. *)
Example withdrawal_cases_sixteen_decimals :
  fst (withdrawal_cases four_weeks 16 "0xstaker1" funded) = Ok tt.
Proof. vm_compute. reflexivity. Qed.

(** With one decimal more than the balance allows, the stake exceeds the
    balance and the [before] hook rejects. *)
Example before_after_staking_nineteen_decimals :
  fst (before_after_staking 19 "0xstaker1" funded) = Throw (Error "stake").
Proof. vm_compute. reflexivity. Qed.

End SuiteFacts.

(** ** The harness, case by case *)

Module SessionFacts.
Import JS Evm Harness.
Import JSFacts EvmFacts HarnessFacts.

Section WithContract.

Context {Storage : Type}.
Variable getTimeRemainingInCurrentEpoch : Chain Storage → BigNumber.
Variable EPOCH_LENGTH : BigNumber.
Implicit Types (w : World Storage) (c : Chain Storage) (n : Node Storage).

Local Abbreviation elapseEpoch :=
  (elapseEpoch getTimeRemainingInCurrentEpoch EPOCH_LENGTH).

(** *** [loadSnapshot] and [elapseEpoch], case by case *)

(** X1: [loadSnapshot(label)] resolves exactly when [snapshots] holds a
    non-empty string for [label]; in every other case, also when the stored
    handle is the empty string, it rejects with the not-saved error that
    names the label and leaves the store and the node untouched. *)
Theorem loadSnapshot_resolves_iff label w :
  ((∃ w', loadSnapshot label w = (Ok tt, w'))
   ↔ ∃ h, snapshots w !! label = Some h ∧ h ≠ "")
  ∧ ((∃ w', loadSnapshot label w = (Ok tt, w'))
     ∨ loadSnapshot label w
       = (Throw (Error ("Cannot load since snapshot has not been saved: "
                        +:+ label)), w)).
Proof.
  destruct (truthy_string (snapshots w !! label)) eqn:Ht.
  - destruct (snapshots w !! label) as [h|] eqn:Hh; [|discriminate].
    apply truthy_string_Some in Ht.
    pose proof (loadSnapshot_truthy _ _ _ Hh Ht) as Hrun.
    split; [split|].
    + intros _. exists h. split; [reflexivity | exact Ht].
    + intros _. eexists. exact Hrun.
    + left. eexists. exact Hrun.
  - pose proof (loadSnapshot_falsy _ _ Ht) as Hrun.
    split; [split|].
    + intros [w' Hw']. rewrite Hrun in Hw'. discriminate.
    + intros (h & Hh & Hne). rewrite Hh in Ht.
      apply truthy_string_Some in Hne. congruence.
    + right. exact Hrun.
Qed.

(** A call of [elapseEpoch] that rejects leaves the world as it was;
    one that resolves leaves the [snapshots] map, the snapshots the node
    holds and the contracts' storage as they were, and has mined exactly
    one block, stamped with the new time, unless [mineBlock] is [false],
    in which case it has mined none. *)
Lemma elapseEpoch_touches_only_time mineBlock w :
  match elapseEpoch mineBlock w with
  | (Ok _, w') =>
      snapshots w' = snapshots w
      ∧ captured (node w') = captured (node w)
      ∧ storage (chain (node w')) = storage (chain (node w))
      ∧ blocks (chain (node w'))
        = (if default true mineBlock
           then clock (chain (node w')) :: blocks (chain (node w))
           else blocks (chain (node w)))
  | (Throw _, w') => w' = w
  end.
Proof.
  rewrite elapseEpoch_unfold.
  destruct (toNumber _) as [remaining|]; [|reflexivity].
  destruct (if remaining =? 0 then toNumber EPOCH_LENGTH else Ok remaining);
    [|reflexivity].
  simpl. destruct (default true mineBlock); repeat split.
Qed.

End WithContract.

End SessionFacts.

(** ** What a trace of the migration script shows *)

Module TraceFacts.
Import JS Migration Trace.

Section WithLibraries.

Context {TransactionResponse TransactionReceipt : Type}.
Variable abi_encode : list string → list jsval → string.
Variable encodeFunctionData : string → Proposal → string.
Variable deployConfig : DeployConfig.

Local Abbreviation call := (@call TransactionResponse TransactionReceipt).
Local Abbreviation entry := (@entry TransactionResponse TransactionReceipt).
Local Abbreviation handler := (@handler TransactionResponse TransactionReceipt).
Local Abbreviation createGrantsProgramProposal :=
  (createGrantsProgramProposal abi_encode encodeFunctionData deployConfig).

(** All the ways a run can go: case analysis on every answer. *)
Ltac answers :=
  repeat match goal with
    | |- context [match ?h ?T ?c ?s with _ => _ end] =>
        destruct (h T c s) as [[?|?] ?]; simpl
    end.

(** A run that rejects has had every call but the last answered, and the
    last rejected with the reason the run rejects with. *)
Lemma run_Throw_answered {S A} (h : handler S) (m : Async A) (s s' : S) e tr :
  run h m s = (Throw e, s', tr) →
  ∃ tr' T (c : call T),
    tr = tr' ++ [Called c (Throw e)] ∧ forallb answered tr' = true.
Proof.
  revert s tr. induction m as [a|T c k IH]; intros s tr; simpl.
  - discriminate.
  - destruct (h T c s) as [[t|e0] s1].
    + destruct (run h (k t) s1) as [[r s2] tr1] eqn:Hrun.
      intros [= -> <- <-].
      destruct (IH t s1 tr1 Hrun) as (tr' & T' & c' & -> & Hall).
      exists (Called c (Ok t) :: tr'), T', c'. split; [reflexivity|].
      simpl. exact Hall.
    + intros [= <- <- <-]. exists [], T, c. split; reflexivity.
Qed.

(** X4: when a call that [createGrantsProgramProposal] awaits is rejected,
    the routine rejects with the same reason: every call before it was
    answered, it is the last call made, and nothing was waited for that had
    not been answered by a submission.  Nothing is caught and nothing is
    retried. *)
Theorem createGrantsProgramProposal_rejection_surfaces
  {S} (h : handler S) (a : Args) (s s' : S) e (tr : list entry) :
  run h (createGrantsProgramProposal a) s = (Throw e, s', tr) →
  ∃ tr' T (c : call T),
    tr = tr' ++ [Called c (Throw e)]
    ∧ forallb answered tr' = true
    ∧ flat_map waited tr = flat_map send_answers tr.
Proof.
  intros Hrun.
  destruct (run_Throw_answered h _ s s' e tr Hrun) as (tr' & T & c & Htr & Hall).
  exists tr', T, c. split; [exact Htr|]. split; [exact Hall|].
  clear Htr Hall. revert Hrun.
  unfold Migration.createGrantsProgramProposal.
  destruct (signer a) as [given|]; simpl; answers;
    intros [= <- <- <-]; reflexivity.
Qed.

(** X5: however the outside world answers, a run of
    [createGrantsProgramProposal] submits nothing, or it submits exactly
    one request, namely the one that [populateTransaction] answered with,
    after exactly one read of the proposal count.  It never submits
    twice, and never submits without having read the count and populated
    the request. *)
Theorem createGrantsProgramProposal_submits_the_populated_request
  {S} (h : handler S) (a : Args) (s : S) :
  flat_map sent (run h (createGrantsProgramProposal a) s).2 = []
  ∨ ∃ count tx,
      flat_map counts (run h (createGrantsProgramProposal a) s).2 = [count]
      ∧ flat_map populate_answers (run h (createGrantsProgramProposal a) s).2
        = [tx]
      ∧ flat_map sent (run h (createGrantsProgramProposal a) s).2 = [tx].
Proof.
  unfold Migration.createGrantsProgramProposal.
  destruct (signer a) as [given|]; simpl; answers;
    first [left; reflexivity
          | right; eexists _, _; repeat split].
Qed.

(** X6: when a signer is passed, [getDeployerSigner] is never called and
    every call that takes a signer is made with the one passed; when none
    is passed, [getDeployerSigner] is the first call, and if it answers,
    every call that takes a signer is made with its answer.  In both cases
    a request handed on for population names that signer's address as its
    sender. *)
Theorem createGrantsProgramProposal_uses_one_signer
  {S} (h : handler S) (a : Args) (s : S) :
  match signer a with
  | Some given =>
      flat_map resolutions (run h (createGrantsProgramProposal a) s).2 = []
      ∧ Forall (eq given)
          (flat_map signers_used (run h (createGrantsProgramProposal a) s).2)
      ∧ Forall (λ tx, from tx = Some (address given))
          (flat_map populated (run h (createGrantsProgramProposal a) s).2)
  | None =>
      ∃ answer rest,
        (run h (createGrantsProgramProposal a) s).2
        = Called getDeployerSigner answer :: rest
        ∧ flat_map resolutions rest = []
        ∧ match answer with
          | Ok deployer =>
              Forall (eq deployer) (flat_map signers_used rest)
              ∧ Forall (λ tx, from tx = Some (address deployer))
                  (flat_map populated rest)
          | Throw _ => rest = []
          end
  end.
Proof.
  unfold Migration.createGrantsProgramProposal.
  destruct (signer a) as [given|]; simpl.
  - answers; repeat split; repeat constructor.
  - destruct (h _ getDeployerSigner s) as [[deployer|e] s1]; simpl.
    + answers; eexists _, _; (split; [reflexivity|]);
        repeat split; repeat constructor.
    + eexists _, _. split; [reflexivity|]. split; reflexivity.
Qed.

End WithLibraries.

Lemma createGrantsProgramProposal_rejection_surfaces_witness :
  let out :=
    run refusing
      (createGrantsProgramProposal
         toy_abi_encode toy_encodeFunctionData grantsConfig grantsArgs)
      quiet in
  out = (Throw (Error "insufficient funds"), out.1.2, out.2)
  ∧ ∃ tr' T (c : call T),
      out.2 = tr' ++ [Called c (Throw (Error "insufficient funds"))]
      ∧ forallb answered tr' = true
      ∧ flat_map waited out.2 = flat_map send_answers out.2.
Proof.
  split; [reflexivity|].
  apply (createGrantsProgramProposal_rejection_surfaces
           toy_abi_encode toy_encodeFunctionData grantsConfig
           refusing grantsArgs quiet
           (run refusing
              (createGrantsProgramProposal
                 toy_abi_encode toy_encodeFunctionData grantsConfig grantsArgs)
              quiet).1.2).
  reflexivity.
Defined.

End TraceFacts.

(** ** More test cases *)

Module CasesFacts.
Import JS Evm Harness SafetyModule Suite Cases.
Import JSFacts EvmFacts HarnessFacts SafetyModuleFacts SuiteFacts.

Lemma formatUnits_zero d : formatUnits 0 d = zero_point_zero.
Proof. unfold formatUnits, zero_point_zero. apply Q2Qc_eq_iff. reflexivity. Qed.

Lemma saved_same_store (w w' : World Storage) label h c :
  saved w label h c →
  snapshots w' = snapshots w →
  captured (node w') = captured (node w) →
  saved w' label h c.
Proof.
  intros [Hl Hc] Hs Hn. split; [rewrite Hs; exact Hl|].
  unfold resolve. rewrite Hn. exact Hc.
Qed.

Section WithConstants.

Variable EPOCH_LENGTH : BigNumber.
Variable DYDX_TOKEN_DECIMALS : Z.
Variable staker1 : string.

Implicit Types (w : World Storage) (c : Chain Storage).

Local Abbreviation parse := (parseNumberToEthersBigNumber DYDX_TOKEN_DECIMALS).
Local Abbreviation staked := (staked DYDX_TOKEN_DECIMALS staker1).
Local Abbreviation minted := (minted staker1).

(** *** The cases of [describe('before staking')] *)

Lemma expect_zero_passes (x : tStringDecimalUnits) v w :
  x = formatUnits v DYDX_TOKEN_DECIMALS → v = 0 →
  expect_equal x zero_point_zero w = (Ok tt, w).
Proof.
  intros -> ->. apply expect_equal_same, formatUnits_zero.
Qed.

Lemma it_stakes_passes w :
  0 <= DYDX_TOKEN_DECIMALS <= 18 →
  minted (chain (node w)) →
  ∃ c', it_stakes DYDX_TOKEN_DECIMALS staker1 w = (Ok tt, with_chain c' w)
        ∧ staked c'.
Proof.
  intros Hd Hm.
  destruct (staked_after_Stake DYDX_TOKEN_DECIMALS staker1 _ Hd Hm)
    as (c' & Hx & Hs).
  exists c'. split; [|exact Hs].
  unfold it_stakes, stake. cbv zeta.
  rewrite (bind_Ok _ _ _ tt _ (sendTransactions_one _ _ _ _ Hx)).
  rewrite view_bind, chain_with_chain.
  apply expect_equal_same. unfold getUserBalanceOfStakedToken.
  destruct Hs as (_ & _ & _ & Hbal & _). rewrite Hbal. reflexivity.
Qed.

Lemma before_case_passes case w :
  0 <= DYDX_TOKEN_DECIMALS <= 18 →
  minted (chain (node w)) →
  ∃ w', before_case_body DYDX_TOKEN_DECIMALS staker1 case w = (Ok tt, w')
        ∧ snapshots w' = snapshots w
        ∧ captured (node w') = captured (node w).
Proof.
  intros Hd Hm. pose proof Hm as (_ & _ & Ht & _ & Hact & Hpen & Hwd).
  destruct case; simpl.
  - exists w. split; [|split; reflexivity].
    unfold it_total_liquidity_starts_at_0. rewrite view_bind.
    exact (expect_zero_passes _ _ w eq_refl Ht).
  - exists w. split; [|split; reflexivity].
    unfold it_user_stake_starts_at_0. rewrite view_bind.
    exact (expect_zero_passes _ _ w eq_refl Hact).
  - exists w. split; [|split; reflexivity].
    unfold it_pending_withdraw_starts_at_0. rewrite view_bind.
    exact (expect_zero_passes _ _ w eq_refl Hpen).
  - exists w. split; [|split; reflexivity].
    unfold it_available_to_withdraw_starts_at_0. rewrite view_bind.
    exact (expect_zero_passes _ _ w eq_refl Hwd).
  - destruct (it_stakes_passes w Hd Hm) as (c' & Hrun & _).
    exists (with_chain c' w). split; [exact Hrun|]. split; reflexivity.
Qed.

(** X8: on a chain where [staker1] holds the initial balance and nothing
    is staked, saved as [afterMockTokenMint], the cases of 'before staking'
    that read the stake bookkeeping or stake pass in every order and any
    number of times, each after the [beforeEach] hook: the stake that one
    case makes is gone when the next case starts.  Afterwards the label
    still stands for the same chain state. *)
Theorem before_staking_cases_pass_in_any_order cases w h0 c0 :
  0 <= DYDX_TOKEN_DECIMALS <= 18 →
  saved w afterMockTokenMint h0 c0 →
  minted c0 →
  ∃ h' w',
    describe_before_staking DYDX_TOKEN_DECIMALS staker1 cases w = (Ok tt, w')
    ∧ saved w' afterMockTokenMint h' c0.
Proof.
  intros Hd Hs Hm. unfold describe_before_staking.
  revert w h0 Hs. induction cases as [|case cases IH]; intros w h0 Hs.
  - exists h0, w. split; [reflexivity | exact Hs].
  - simpl.
    destruct (loadSnapshot_saved afterMockTokenMint h0 c0 w Hs)
      as (h1 & w1 & Hrun1 & Hc1 & Hs1).
    assert (Hm1 : minted (chain (node w1))) by (rewrite Hc1; exact Hm).
    destruct (before_case_passes case w1 Hd Hm1) as (w2 & Hrun2 & Hsn & Hcap).
    destruct (IH w2 h1 (saved_same_store _ _ _ _ _ Hs1 Hsn Hcap))
      as (h' & w' & Hrun & Hs').
    exists h', w'. split; [|exact Hs'].
    unfold beforeEach_before_staking.
    rewrite (bind_Ok _ _ _ _ _ Hrun1), (bind_Ok _ _ _ _ _ Hrun2).
    exact Hrun.
Qed.

(** *** The cases of [describe('after staking')] *)

Lemma it_user_stake_passes w :
  0 <= DYDX_TOKEN_DECIMALS →
  staked (chain (node w)) →
  it_user_stake DYDX_TOKEN_DECIMALS staker1 w = (Ok tt, w).
Proof.
  intros Hd (_ & _ & _ & _ & Hact & _).
  unfold it_user_stake. rewrite view_bind.
  apply expect_equal_same. unfold getUserStake. rewrite Hact.
  apply formatUnits_parse, Hd.
Qed.

Lemma after_case_passes case w :
  0 <= DYDX_TOKEN_DECIMALS →
  staked (chain (node w)) →
  ∃ w', after_case_body EPOCH_LENGTH DYDX_TOKEN_DECIMALS staker1 case w
        = (Ok tt, w')
        ∧ snapshots w' = snapshots w
        ∧ captured (node w') = captured (node w).
Proof.
  intros Hd Hs. destruct case; simpl.
  - exists w. split; [|split; reflexivity].
    apply (it_total_liquidity_passes DYDX_TOKEN_DECIMALS staker1); assumption.
  - exists w. split; [|split; reflexivity].
    apply it_user_stake_passes; assumption.
  - eexists. split; [|split].
    + apply (it_pending_withdraw_passes DYDX_TOKEN_DECIMALS staker1);
        assumption.
    + reflexivity.
    + reflexivity.
  - eexists. split; [|split].
    + apply (it_available_to_withdraw_passes
               EPOCH_LENGTH DYDX_TOKEN_DECIMALS staker1); assumption.
    + reflexivity.
    + reflexivity.
  - destruct (it_withdraws_passes EPOCH_LENGTH DYDX_TOKEN_DECIMALS staker1
                w Hd Hs) as (c' & Hrun & _).
    exists (with_chain c' w). split; [exact Hrun|]. split; reflexivity.
  - destruct (it_withdraws_max_passes EPOCH_LENGTH DYDX_TOKEN_DECIMALS staker1
                w Hd Hs) as (c' & Hrun & _).
    exists (with_chain c' w). split; [exact Hrun|]. split; reflexivity.
Qed.

(** X9: on the same chain, after the [before] hook of 'after staking'
    has staked, the cases that read the stake bookkeeping, request a
    withdrawal or withdraw pass in every order and any number of times,
    each after the [beforeEach] hook: what one case requests or withdraws
    is undone before the next case starts. *)
Theorem after_staking_cases_pass_in_any_order cases w h0 c0 :
  0 <= DYDX_TOKEN_DECIMALS <= 18 →
  saved w afterMockTokenMint h0 c0 →
  minted c0 →
  ∃ h1 c1 w',
    describe_after_staking EPOCH_LENGTH DYDX_TOKEN_DECIMALS staker1 cases w
    = (Ok tt, w')
    ∧ saved w' afterStake h1 c1
    ∧ staked c1.
Proof.
  intros Hd Hs Hm. pose proof (proj1 Hd) as Hd0.
  unfold describe_after_staking.
  destruct (before_after_staking_spec DYDX_TOKEN_DECIMALS staker1 w h0 c0
              Hd Hs Hm) as (h1 & c1 & w1 & Hrun0 & Hs1 & Hst).
  rewrite (bind_Ok _ _ _ _ _ Hrun0). clear Hrun0 Hs w.
  revert w1 h1 Hs1. induction cases as [|case cases IH]; intros w h Hs.
  - exists h, c1, w. split; [reflexivity|]. split; assumption.
  - simpl.
    destruct (loadSnapshot_saved afterStake h c1 w Hs)
      as (h2 & w2 & Hrun1 & Hc2 & Hs2).
    assert (Hst2 : staked (chain (node w2))) by (rewrite Hc2; exact Hst).
    destruct (after_case_passes case w2 Hd0 Hst2) as (w3 & Hrun2 & Hsn & Hcap).
    destruct (IH w3 h2 (saved_same_store _ _ _ _ _ Hs2 Hsn Hcap))
      as (h' & c' & w' & Hrun & Hs' & Hst').
    exists h', c', w'. split; [|split; assumption].
    unfold beforeEach_after_staking.
    rewrite (bind_Ok _ _ _ _ _ Hrun1), (bind_Ok _ _ _ _ _ Hrun2).
    exact Hrun.
Qed.

End WithConstants.

(** *** Instances with 18 decimals *)

Lemma before_staking_cases_pass_in_any_order_witness :
  let cases :=
    [StakesToken; TotalLiquidityStartsAt0; StakesToken; UserStakeStartsAt0;
     PendingWithdrawStartsAt0; AvailableToWithdrawStartsAt0] in
  (0 <= 18 <= 18)
  ∧ saved funded afterMockTokenMint "0x0" (chain (node funded))
  ∧ minted "0xstaker1" (chain (node funded))
  ∧ ∃ h' w',
      describe_before_staking 18 "0xstaker1" cases funded = (Ok tt, w')
      ∧ saved w' afterMockTokenMint h' (chain (node funded)).
Proof.
  split; [lia|]. split; [exact funded_saved|]. split; [exact funded_minted|].
  apply (before_staking_cases_pass_in_any_order 18 "0xstaker1"
           [StakesToken; TotalLiquidityStartsAt0; StakesToken;
            UserStakeStartsAt0; PendingWithdrawStartsAt0;
            AvailableToWithdrawStartsAt0]
           funded "0x0" (chain (node funded))).
  - lia.
  - exact funded_saved.
  - exact funded_minted.
Defined.

Lemma after_staking_cases_pass_in_any_order_witness :
  let cases :=
    [Withdraws; TotalLiquidity; WithdrawsMax; PendingWithdraw; UserStake;
     AvailableToWithdraw; Withdraws] in
  (0 <= 18 <= 18)
  ∧ saved funded afterMockTokenMint "0x0" (chain (node funded))
  ∧ minted "0xstaker1" (chain (node funded))
  ∧ ∃ h1 c1 w',
      describe_after_staking four_weeks 18 "0xstaker1" cases funded
      = (Ok tt, w')
      ∧ saved w' afterStake h1 c1
      ∧ staked 18 "0xstaker1" c1.
Proof.
  split; [lia|]. split; [exact funded_saved|]. split; [exact funded_minted|].
  apply (after_staking_cases_pass_in_any_order four_weeks 18 "0xstaker1"
           [Withdraws; TotalLiquidity; WithdrawsMax; PendingWithdraw;
            UserStake; AvailableToWithdraw; Withdraws]
           funded "0x0" (chain (node funded))).
  - lia.
  - exact funded_saved.
  - exact funded_minted.
Defined.

(** The same runs, by evaluation. *)
Example describe_before_staking_funded :
  fst (describe_before_staking 18 "0xstaker1"
         [StakesToken; TotalLiquidityStartsAt0; StakesToken; UserStakeStartsAt0]
         funded) = Ok tt.
Proof. vm_compute. reflexivity. Qed.

Example describe_after_staking_funded :
  fst (describe_after_staking four_weeks 18 "0xstaker1"
         [Withdraws; TotalLiquidity; WithdrawsMax; UserStake] funded) = Ok tt.
Proof. vm_compute. reflexivity. Qed.

(** Without the [beforeEach] hook in between, a case does see what the
    case before it did: after a full withdrawal nothing is staked. *)
Example without_beforeEach_cases_interfere :
  fst (bind (before_after_staking 18 "0xstaker1")
         (λ _, bind (it_withdraws four_weeks 18 "0xstaker1")
                 (λ _, it_total_liquidity 18)) funded)
  = Throw (Error "AssertionError").
Proof. vm_compute. reflexivity. Qed.

End CasesFacts.
